(** * Chocolate packing game: level progression, placement validation, score

    A shallow embedding of the game logic of [GamePage.tsx] (component state,
    drop handlers, the two completion checks), of [App.tsx] (run state and
    score callbacks) and of the sound manager, followed by the properties
    established about them.

    Conventions.
    - React state is threaded explicitly: a handler is a function from the
      component [State] to the new [State] together with the list of side
      effects it issued, in order (sounds, timers, callbacks into [App]).
    - Counts and array lengths are [nat]; the level index and the scores,
      which are plain JavaScript numbers, are [Z].  All numbers involved are
      small integers, on which floating point arithmetic is exact.
    - [Math.floor (a / b)] on non-negative integers with [b > 0] is [a / b]
      on [nat]; the source only evaluates it under [boxes.length > 0].
    - The volume of the sound manager is a number that is compared but never
      computed with; it is a rational, an infinity or NaN. *)

From Stdlib Require Import String Ascii ZArith Arith Lia Bool.
From Stdlib Require Import DecimalString DecimalNat List Permutation.
From Stdlib Require QArith.
Import ListNotations.
Open Scope string_scope.
Open Scope list_scope.
Open Scope nat_scope.

(** ** JavaScript primitives used by the source *)

Module Js.

(** [arr[i]]: [undefined] (here [None]) outside the array. *)
Definition index {A : Type} (arr : list A) (i : Z) : option A :=
  if (i <? 0)%Z then None else nth_error arr (Z.to_nat i).

(** [a || b] on values that are objects (always truthy) or [undefined]. *)
Definition or_else {A : Type} (a b : option A) : option A :=
  match a with
  | Some x => Some x
  | None => b
  end.

(** Truthiness of a [string | null] value: [null], [undefined] and the
    empty string are falsy. *)
Definition truthy (s : option string) : bool :=
  match s with
  | Some s' => negb (s' =? "")%string
  | None => false
  end.

(** Template interpolation of a non-negative integer. *)
Definition show (n : nat) : string :=
  NilEmpty.string_of_uint (Nat.to_uint n).

End Js.

(** ** Data model *)

Inductive ChocolateType : Type := cocoa | orange | strawberry.

Module ChocolateItem.
Record t : Type := mk { id : string; type : ChocolateType; placed : bool }.
End ChocolateItem.

Module BoxItem.
Record t : Type :=
  mk { id : string; chocolates : list ChocolateItem.t; color : option string }.
End BoxItem.

Module Level.
Record t : Type :=
  mk { chocolates : nat;
       name : string;
       presetBoxes : bool;
       specialMessage : option string }.
End Level.

Module ChocolateKind.
Record t : Type := mk { type : ChocolateType; emoji : string; name : string }.
End ChocolateKind.

Module Color.
Record t : Type := mk { color : string; name : string; emoji : string }.
End Color.

Definition LEVELS : list Level.t :=
  [ Level.mk 6 "مرحله اول" true None;
    Level.mk 8 "مرحله دوم" false None;
    Level.mk 12 "مرحله سوم" false None;
    Level.mk 7 "مرحله چهارم" false
      (Some "سفارش جدید 7 تا شکلات هست، توی تقسیم بندی دقت کن.") ].

Definition CHOCOLATE_TYPES : list ChocolateKind.t :=
  [ ChocolateKind.mk cocoa "🍫" "شکلاتی";
    ChocolateKind.mk orange "🍫" "پرتغالی";
    ChocolateKind.mk strawberry "🍫" "توت‌فرنگی" ].

Definition COLORS : list Color.t :=
  [ Color.mk "#8B4513" "شکلاتی" "🍫";
    Color.mk "#FF8C00" "پرتقالی" "🍊";
    Color.mk "#DC143C" "توت فرنگی" "🍓" ].

(** Run state owned by [App]. *)
Module GameState.
Record t : Type :=
  mk { currentLevel : Z; score : Z; isPlaying : bool; totalScore : Z }.
End GameState.

Inductive GamePhase : Type := packing | coloring | completed | pixi.

(** Component state of [GamePage] (the [useState] cells). *)
Record State : Type :=
  mkState { chocolates : list ChocolateItem.t;
            boxes : list BoxItem.t;
            gamePhase : GamePhase;
            showNPC : bool;
            message : string;
            selectedColor : option Color.t }.

(** Deferred callbacks handed to [setTimeout]. *)
Inductive Callback : Type :=
  | clearMessage     (* () => setMessage('') *)
  | callResetGame.   (* () => onResetGame() *)

(** Side effects a handler issues, in program order. *)
Inductive Effect : Type :=
  | playSuccessSound
  | playErrorSound
  | playDropSound
  | playColorSound
  | playCompleteSound
  | playClickSound
  | playVoiceMessage (text : string)
  | setTimeout (cb : Callback) (ms : nat)
  | onAwardPoints (points : Z)
  | onCompleteRun
  | onNextLevel
  | onResetGame.

(** The [useState] setters. *)
Definition setChocolates (v : list ChocolateItem.t) (st : State) : State :=
  mkState v (boxes st) (gamePhase st) (showNPC st) (message st) (selectedColor st).
Definition setBoxes (v : list BoxItem.t) (st : State) : State :=
  mkState (chocolates st) v (gamePhase st) (showNPC st) (message st) (selectedColor st).
Definition setGamePhase (v : GamePhase) (st : State) : State :=
  mkState (chocolates st) (boxes st) v (showNPC st) (message st) (selectedColor st).
Definition setMessage (v : string) (st : State) : State :=
  mkState (chocolates st) (boxes st) (gamePhase st) (showNPC st) v (selectedColor st).
Definition setSelectedColor (v : option Color.t) (st : State) : State :=
  mkState (chocolates st) (boxes st) (gamePhase st) (showNPC st) (message st) v.

(** ** Level catalog *)

(** [LEVELS[gameState.currentLevel - 1] || LEVELS[LEVELS.length - 1]];
    [None] would be an [undefined] level. *)
Definition currentLevelData (currentLevel : Z) : option Level.t :=
  Js.or_else (Js.index LEVELS (currentLevel - 1))
             (Js.index LEVELS (Z.of_nat (length LEVELS) - 1)).

(** ** Level initialisation *)

(** The inner [for] loop: [count] items of one type, ids counting up. *)
Fixpoint pushChocolates (ty : ChocolateType) (count id : nat)
  : list ChocolateItem.t :=
  match count with
  | O => []
  | S k =>
      ChocolateItem.mk ("chocolate-" ++ Js.show id)%string ty false
        :: pushChocolates ty k (S id)
  end.

(** [chocolatesPerType + (index < remainder ? 1 : 0)]. *)
Definition typeCount (total index : nat) : nat :=
  total / 3 + (if index <? total mod 3 then 1 else 0).

(** [CHOCOLATE_TYPES.forEach((type, index) => ...)], with the running [id]. *)
Fixpoint forEachType (types : list ChocolateKind.t) (total index id : nat)
  : list ChocolateItem.t :=
  match types with
  | [] => []
  | ty :: rest =>
      let count := typeCount total index in
      pushChocolates (ChocolateKind.type ty) count id
        ++ forEachType rest total (S index) (id + count)
  end.

Definition newChocolates (lvl : Level.t) : list ChocolateItem.t :=
  forEachType CHOCOLATE_TYPES (Level.chocolates lvl) 0 0.

(** The preset boxes of level 1: [box-${Date.now()}-${i}] for [i < count]. *)
Fixpoint presetBoxesFrom (now : nat) (count i : nat) : list BoxItem.t :=
  match count with
  | O => []
  | S k =>
      BoxItem.mk ("box-" ++ Js.show now ++ "-" ++ Js.show i)%string [] None
        :: presetBoxesFrom now k (S i)
  end.

Definition levelMessage (lvl : Level.t) : string :=
  if Js.truthy (Level.specialMessage lvl) then
    match Level.specialMessage lvl with
    | Some m => m
    | None => ""
    end
  else
    (Js.show (Level.chocolates lvl)
       ++ " تا سفارش برای جشن مدرسه داریم باید سفارش ها رو آماده کنیم.")%string.

(** [initializeLevel].  [shuffled] is the array that
    [newChocolates.sort(() => Math.random() - 0.5)] leaves, some rearrangement
    of [newChocolates]; [now] is the reading of [Date.now()]. *)
Definition initializeLevel (lvl : Level.t) (now : nat)
    (shuffled : list ChocolateItem.t) (st : State) : State :=
  let st := setChocolates shuffled st in
  let st :=
    if Level.presetBoxes lvl
    then setBoxes (presetBoxesFrom now 2 0) st
    else setBoxes [] st in
  let st := setGamePhase packing st in
  setMessage (levelMessage lvl) st.

(** The [useState] initial values. *)
Definition initialState : State := mkState [] [] packing true "" None.

(** ** Box and item handlers *)

Definition newBoxId (now : nat) (rnd : string) : string :=
  ("box-" ++ Js.show now ++ "-" ++ rnd)%string.

(** [addBox]; [now] and [rnd] are the renderings of [Date.now()] and
    [Math.random()] inside the new id. *)
Definition addBox (now : nat) (rnd : string) (st : State)
  : State * list Effect :=
  let newBox := BoxItem.mk (newBoxId now rnd) [] None in
  (setBoxes (boxes st ++ [newBox]) st, [playClickSound]).

Definition unplace (c : ChocolateItem.t) : ChocolateItem.t :=
  ChocolateItem.mk (ChocolateItem.id c) (ChocolateItem.type c) false.

Definition markPlaced (cid : string) (c : ChocolateItem.t) : ChocolateItem.t :=
  if (ChocolateItem.id c =? cid)%string
  then ChocolateItem.mk (ChocolateItem.id c) (ChocolateItem.type c) true
  else c.

Definition clearBoxes (lvl : Level.t) (st : State) : State * list Effect :=
  if Level.presetBoxes lvl then (st, [])
  else
    let st := setBoxes [] st in
    let st := setChocolates (map unplace (chocolates st)) st in
    let st := setSelectedColor None st in
    (setGamePhase packing st, [playClickSound]).

Definition appendTo (boxId : string) (chocolate : ChocolateItem.t)
    (box : BoxItem.t) : BoxItem.t :=
  if (BoxItem.id box =? boxId)%string
  then BoxItem.mk (BoxItem.id box) (BoxItem.chocolates box ++ [chocolate])
         (BoxItem.color box)
  else box.

Definition handleDropChocolate (boxId : string) (chocolate : ChocolateItem.t)
    (st : State) : State * list Effect :=
  if ChocolateItem.placed chocolate then (st, [])
  else
    let st :=
      setChocolates
        (map (markPlaced (ChocolateItem.id chocolate)) (chocolates st)) st in
    let st := setBoxes (map (appendTo boxId chocolate) (boxes st)) st in
    (st, [playDropSound]).

Definition paint (boxId : string) (color : Color.t) (box : BoxItem.t)
  : BoxItem.t :=
  if (BoxItem.id box =? boxId)%string
  then BoxItem.mk (BoxItem.id box) (BoxItem.chocolates box)
         (Some (Color.color color))
  else box.

Definition handleDropColor (boxId : string) (color : Color.t) (st : State)
  : State * list Effect :=
  (setBoxes (map (paint boxId color) (boxes st)) st, [playColorSound]).

(** ** Completion checks *)

Definition msgPackingDone : string :=
  "آفرین شکلات ها رو دسته بندی کردی حالا باید رنگ جعبه ها شو مشخص کنی روی رنگی که میخوای کلیک کن و بعدش روی جعبه کلیک کن تا جعبه رنگ رنگ بشه".
Definition msgWrongSplit : string :=
  "اشتباه تقسیم کردی دوباره شکلات ها رو تقسیم کن".
Definition msgAllColoured : string :=
  "اوه! چقدر قشنگ شد! همه جعبه‌ها مثل رنگین‌کمون شدن! 🌈✨".
Definition voiceAllColoured : string :=
  "اوه! چقدر قشنگ شد! همه جعبه‌ها مثل رنگین‌کمون شدن!".
Definition msgChampion : string :=
  "وای! تو واقعاً یه قهرمان بسته‌بندی شکلات هستی! همه سفارشا رو تحویل دادی! 🏆⭐".

(** [chocolates.filter(c => c.placed).length]. *)
Definition placedChocolates (st : State) : nat :=
  length (filter ChocolateItem.placed (chocolates st)).

(** The guard of [checkPackingComplete]:
    [placedChocolates === currentLevelData.chocolates && boxes.length > 0]. *)
Definition packingComplete (lvl : Level.t) (st : State) : bool :=
  (placedChocolates st =? Level.chocolates lvl) && (0 <? length (boxes st)).

(** [Math.floor(currentLevelData.chocolates / boxes.length)]. *)
Definition chocolatesPerBox (lvl : Level.t) (st : State) : nat :=
  Level.chocolates lvl / length (boxes st).

(** [boxes.every(box => box.chocolates.length === chocolatesPerBox)]. *)
Definition isEvenlyDistributed (lvl : Level.t) (st : State) : bool :=
  forallb
    (fun box => length (BoxItem.chocolates box) =? chocolatesPerBox lvl st)
    (boxes st).

Definition emptied (box : BoxItem.t) : BoxItem.t :=
  BoxItem.mk (BoxItem.id box) [] None.

Definition checkPackingComplete (lvl : Level.t) (st : State)
  : State * list Effect :=
  if packingComplete lvl st then
    if isEvenlyDistributed lvl st then
      let st := setGamePhase coloring st in
      let st := setMessage msgPackingDone st in
      (st, [playSuccessSound])
    else if negb (Level.presetBoxes lvl) then
      let st := setMessage msgWrongSplit st in
      let st := setBoxes (map emptied (boxes st)) st in
      let st := setChocolates (map unplace (chocolates st)) st in
      let st := setSelectedColor None st in
      let st := setGamePhase packing st in
      (st, [playErrorSound; setTimeout clearMessage 2000])
    else (st, [])
  else (st, []).

(** [boxes.length > 0 && boxes.every(box => box.color)]. *)
Definition coloringComplete (st : State) : bool :=
  (0 <? length (boxes st))
  && forallb (fun box => Js.truthy (BoxItem.color box)) (boxes st).

(** [checkColoringComplete]; [App] always passes [onAwardPoints]. *)
Definition checkColoringComplete (gameState : GameState.t) (st : State)
  : State * list Effect :=
  if coloringComplete st then
    let st := setGamePhase completed st in
    let st := setMessage msgAllColoured st in
    (st,
     [onAwardPoints 10; playCompleteSound; playVoiceMessage voiceAllColoured]
       ++ (if (GameState.currentLevel gameState =? Z.of_nat (length LEVELS))%Z
           then [onCompleteRun] else []))
  else (st, []).

(** The effect registered on [[chocolates, boxes, gamePhase]]. *)
Definition completionEffect (lvl : Level.t) (gameState : GameState.t)
    (st : State) : State * list Effect :=
  match gamePhase st with
  | packing => checkPackingComplete lvl st
  | coloring => checkColoringComplete gameState st
  | _ => (st, [])
  end.

(** Firing a deferred callback on the component state. *)
Definition fire (cb : Callback) (st : State) : State * list Effect :=
  match cb with
  | clearMessage => (setMessage "" st, [])
  | callResetGame => (st, [onResetGame])
  end.

Definition handleNextLevel (gameState : GameState.t) (st : State)
  : State * list Effect :=
  if (GameState.currentLevel gameState <? Z.of_nat (length LEVELS))%Z
  then (st, [onNextLevel])
  else (setMessage msgChampion st,
        [playCompleteSound; setTimeout callResetGame 3000]).

(** What a click on the add-box button does, from the two branches of the
    returned JSX.  Under [currentLevelData.presetBoxes ? ... : ...] the first
    branch renders [<button className="add-box-button disabled" disabled>]
    with no [onClick]; the second renders, under
    [!currentLevelData.presetBoxes &&], [<button onClick={addBox}>]. *)
Definition clickAddBox (lvl : Level.t) (now : nat) (rnd : string) (st : State)
  : State * list Effect :=
  if Level.presetBoxes lvl then (st, []) else addBox now rnd st.

(** ** Run state and score ([App]) *)

Definition initialGameState : GameState.t := GameState.mk 1 0 false 0.

Definition startGame (prev : GameState.t) : GameState.t :=
  GameState.mk 1 0 true (GameState.totalScore prev).

Definition nextLevel (prev : GameState.t) : GameState.t :=
  GameState.mk (Z.min (GameState.currentLevel prev + 1) 4)
    (GameState.score prev) (GameState.isPlaying prev)
    (GameState.totalScore prev).

Definition resetGame (prev : GameState.t) : GameState.t :=
  GameState.mk 1 0 true (GameState.totalScore prev).

Definition awardPoints (points : Z) (prev : GameState.t) : GameState.t :=
  GameState.mk (GameState.currentLevel prev) (GameState.score prev + points)
    (GameState.isPlaying prev) (GameState.totalScore prev).

Definition completeRun (prev : GameState.t) : GameState.t :=
  GameState.mk (GameState.currentLevel prev) (GameState.score prev)
    (GameState.isPlaying prev)
    (GameState.totalScore prev + GameState.score prev).

(** The props wiring of [<GamePage ... />]: how [App] reacts to an effect. *)
Definition deliver (e : Effect) (gs : GameState.t) : GameState.t :=
  match e with
  | onAwardPoints points => awardPoints points gs
  | onCompleteRun => completeRun gs
  | onNextLevel => nextLevel gs
  | onResetGame => resetGame gs
  | _ => gs
  end.

Definition deliverAll (es : list Effect) (gs : GameState.t) : GameState.t :=
  fold_left (fun g e => deliver e g) es gs.

(** ** The events the rendered page delivers *)

(** The level record the component works with.  [currentLevelData] is never
    [undefined], so the fallback branch below is dead. *)
Definition levelAt (currentLevel : Z) : Level.t :=
  match currentLevelData currentLevel with
  | Some lvl => lvl
  | None => Level.mk 0 "" false None
  end.

(** The [gamePhase] prop handed to every [Box]:
    [gamePhase === 'coloring' ? 'coloring' : 'packing']. *)
Definition boxPhase (st : State) : GamePhase :=
  match gamePhase st with
  | coloring => coloring
  | _ => packing
  end.

Inductive Event : Type :=
  | DropChocolate (boxId : string) (chocolate : ChocolateItem.t)
  | DropColor (boxId : string) (colorName : string)
  | ClickBox (boxId : string)
  | SelectColor (color : Color.t)
  | ClickAddBox (now : nat) (rnd : string)
  | ClickClearBoxes
  | RunEffect.

(** One event, through the gates of the component that receives it:
    the [drop] callbacks and [handleColorClick] of [Box], the buttons of
    [GamePage], and the completion effect. *)
Definition handleEvent (lvl : Level.t) (gameState : GameState.t) (ev : Event)
    (st : State) : State * list Effect :=
  match ev with
  | DropChocolate boxId chocolate =>
      match boxPhase st with
      | packing => handleDropChocolate boxId chocolate st
      | _ => (st, [])
      end
  | DropColor boxId colorName =>
      match boxPhase st with
      | coloring =>
          match find (fun c => (Color.name c =? colorName)%string) COLORS with
          | Some colorItem => handleDropColor boxId colorItem st
          | None => (st, [])
          end
      | _ => (st, [])
      end
  | ClickBox boxId =>
      match boxPhase st, selectedColor st with
      | coloring, Some color => handleDropColor boxId color st
      | _, _ => (st, [])
      end
  | SelectColor color =>
      match gamePhase st with
      | coloring => (setSelectedColor (Some color) st, [])
      | _ => (st, [])
      end
  | ClickAddBox now rnd => clickAddBox lvl now rnd st
  | ClickClearBoxes =>
      match gamePhase st with
      | packing => clearBoxes lvl st
      | _ => (st, [])
      end
  | RunEffect => completionEffect lvl gameState st
  end.

(** A sequence of events, keeping the effects issued along the way. *)
Fixpoint run (lvl : Level.t) (gameState : GameState.t) (evs : list Event)
    (st : State) : State * list Effect :=
  match evs with
  | [] => (st, [])
  | ev :: rest =>
      let (st1, es1) := handleEvent lvl gameState ev st in
      let (st2, es2) := run lvl gameState rest st1 in
      (st2, es1 ++ es2)
  end.

(** ** Concrete plays *)

Module Play.

(** A freshly initialised level; the shuffle left the items in order and
    the clock read 17. *)
Definition fresh (currentLevel : Z) : State :=
  let lvl := levelAt currentLevel in
  initializeLevel lvl 17 (newChocolates lvl) initialState.

Definition dropsInto (boxId : string) (cs : list ChocolateItem.t)
  : list Event :=
  map (DropChocolate boxId) cs.

Definition after (currentLevel : Z) (evs : list Event) : State :=
  fst (run (levelAt currentLevel)
           (GameState.mk currentLevel 0 true 0) evs (fresh currentLevel)).

(** Level 1, the two preset boxes filled 4 / 2. *)
Definition level1_4_2 : State :=
  let pool := newChocolates (levelAt 1) in
  after 1 (dropsInto "box-17-0" (firstn 4 pool)
           ++ dropsInto "box-17-1" (skipn 4 pool)).

(** Level 1, the two preset boxes filled 3 / 3, not yet checked. *)
Definition level1_3_3 : State :=
  let pool := newChocolates (levelAt 1) in
  after 1 (dropsInto "box-17-0" (firstn 3 pool)
           ++ dropsInto "box-17-1" (skipn 3 pool)).

(** Level 2, three boxes added and filled 3 / 3 / 2, not yet checked. *)
Definition level2_3_3_2 : State :=
  let pool := newChocolates (levelAt 2) in
  after 2 ([ClickAddBox 18 "0.25"; ClickAddBox 19 "0.5"; ClickAddBox 20 "0.75"]
           ++ dropsInto "box-18-0.25" (firstn 3 pool)
           ++ dropsInto "box-19-0.5" (firstn 3 (skipn 3 pool))
           ++ dropsInto "box-20-0.75" (skipn 6 pool)).

(** Level 4, two boxes added and filled 4 / 3, not yet checked. *)
Definition level4_4_3 : State :=
  let pool := newChocolates (levelAt 4) in
  after 4 ([ClickAddBox 18 "0.25"; ClickAddBox 19 "0.5"]
           ++ dropsInto "box-18-0.25" (firstn 4 pool)
           ++ dropsInto "box-19-0.5" (skipn 4 pool)).

(** Level 4, one box holding all seven items, checked, then coloured by
    selecting the first colour and clicking the box; the completion effect
    has not run yet. *)
Definition level4_coloured : State :=
  let pool := newChocolates (levelAt 4) in
  after 4 ([ClickAddBox 18 "0.25"]
           ++ dropsInto "box-18-0.25" pool
           ++ [RunEffect;
               SelectColor (Color.mk "#8B4513" "شکلاتی" "🍫");
               ClickBox "box-18-0.25"]).

End Play.

(** ** Derived quantities used in the statements *)

(** Sum of [box.chocolates.length] over a list of boxes. *)
Definition totalInBoxes (bs : list BoxItem.t) : nat :=
  fold_right (fun box acc => length (BoxItem.chocolates box) + acc) 0 bs.

(** [chocolates.filter(c => !c.placed).length], the warehouse size. *)
Definition unplacedChocolates (st : State) : nat :=
  length (filter (fun c => negb (ChocolateItem.placed c)) (chocolates st)).

Definition boxIds (bs : list BoxItem.t) : list string := map BoxItem.id bs.
Definition chocolateIds (cs : list ChocolateItem.t) : list string :=
  map ChocolateItem.id cs.

(** ** Notions used in the statements *)

(** The timing the retry is described with: the check only notifies, the
    arrangement stays in place until the delay has elapsed, and it is the
    deferred callback that empties the boxes and returns the items. *)
Definition resetDeferred (lvl : Level.t) (st : State) : Prop :=
  let (shown, issued) := checkPackingComplete lvl st in
  boxes shown = boxes st
  /\ chocolates shown = chocolates st
  /\ exists (cb : Callback) (ms : nat),
       In (setTimeout cb ms) issued
       /\ totalInBoxes (boxes (fst (fire cb shown))) = 0
       /\ placedChocolates (fst (fire cb shown)) = 0.

(** Events the rendered page can deliver in state [st]: the warehouse only
    shows items of the pool that are not placed, a drop lands on a box that
    is on the page, and a new box comes with an id no box carries yet. *)
Definition offered (st : State) (ev : Event) : Prop :=
  match ev with
  | DropChocolate boxId chocolate =>
      In chocolate (chocolates st)
      /\ ChocolateItem.placed chocolate = false
      /\ In boxId (boxIds (boxes st))
  | ClickAddBox now rnd => ~ In (newBoxId now rnd) (boxIds (boxes st))
  | _ => True
  end.

Fixpoint offeredAll (lvl : Level.t) (gameState : GameState.t)
    (evs : list Event) (st : State) : Prop :=
  match evs with
  | [] => True
  | ev :: rest =>
      offered st ev
      /\ offeredAll lvl gameState rest (fst (handleEvent lvl gameState ev st))
  end.

(** What every reachable state of a level with [total] items satisfies. *)
Record Balanced (total : nat) (st : State) : Prop :=
  { bal_chocolate_ids : NoDup (chocolateIds (chocolates st));
    bal_box_ids : NoDup (boxIds (boxes st));
    bal_pool : length (chocolates st) = total;
    bal_placed : placedChocolates st = totalInBoxes (boxes st) }.

(** The id of the [k]-th item made by [initializeLevel]. *)
Definition chocolateId (k : nat) : string :=
  ("chocolate-" ++ Js.show k)%string.

(** Colours only reach a box through [handleDropColor], which is handed an
    entry of [COLORS]: a box is uncoloured or carries a palette colour. *)
Definition paletteColoured (bs : list BoxItem.t) : Prop :=
  Forall (fun box =>
            BoxItem.color box = None
            \/ exists c, In c COLORS /\ BoxItem.color box = Some (Color.color c))
         bs.

(** The colour picker only offers the entries of [COLORS]. *)
Definition paletteEvent (ev : Event) : Prop :=
  match ev with
  | SelectColor color => In color COLORS
  | _ => True
  end.

Definition paletteSelected (st : State) : Prop :=
  match selectedColor st with
  | Some color => In color COLORS
  | None => True
  end.

Definition isCompleteRun (e : Effect) : bool :=
  match e with
  | onCompleteRun => true
  | _ => false
  end.

(** The callbacks [App] hands out, as operations on the run state. *)
Inductive Op : Type :=
  | opStartGame
  | opAwardPoints (points : Z)
  | opNextLevel
  | opResetGame
  | opCompleteRun.

Definition applyOp (op : Op) (gs : GameState.t) : GameState.t :=
  match op with
  | opStartGame => startGame gs
  | opAwardPoints points => awardPoints points gs
  | opNextLevel => nextLevel gs
  | opResetGame => resetGame gs
  | opCompleteRun => completeRun gs
  end.

Definition runOps (ops : list Op) (gs : GameState.t) : GameState.t :=
  fold_left (fun g op => applyOp op g) ops gs.

(** The only award in the program is [onAwardPoints(10)]. *)
Definition levelPoints (op : Op) : Prop :=
  match op with
  | opAwardPoints points => points = 10%Z
  | _ => True
  end.

(** ** Further notions: phases, awards, pages *)

(** The order in which a level instance passes through its phases. *)
Definition phaseRank (p : GamePhase) : nat :=
  match p with
  | packing => 0
  | coloring => 1
  | completed => 2
  | pixi => 3
  end.

Definition isAward (e : Effect) : bool :=
  match e with
  | onAwardPoints _ => true
  | _ => false
  end.

(** Number of items of one type in a pool. *)
Definition typeEqb (a b : ChocolateType) : bool :=
  match a, b with
  | cocoa, cocoa | orange, orange | strawberry, strawberry => true
  | _, _ => false
  end.

Definition countType (ty : ChocolateType) (cs : list ChocolateItem.t) : nat :=
  length (filter (fun c => typeEqb (ChocolateItem.type c) ty) cs).

(** The sizes of the boxes, in order. *)
Definition boxSizes (bs : list BoxItem.t) : list nat :=
  map (fun box => length (BoxItem.chocolates box)) bs.

(** [handlePixiComplete]. *)
Definition handlePixiComplete (st : State) : State * list Effect :=
  let st := setMessage "🎉 عالی! مرحله تکمیل شد! 🎉" st in
  (setGamePhase completed st, []).

(** What [App] renders: [!gameState.isPlaying ? <LoginPage/> : <GamePage/>]. *)
Inductive Page : Type := LoginPage | GamePage.

Definition render (gs : GameState.t) : Page :=
  if negb (GameState.isPlaying gs) then LoginPage else GamePage.

(** The run state after the effects of a handler have been delivered, the
    timers among them having fired (in order) as well. *)
Fixpoint deliverWithTimers (es : list Effect) (st : State)
    (gs : GameState.t) : GameState.t :=
  match es with
  | [] => gs
  | setTimeout cb _ :: rest =>
      deliverWithTimers rest st (deliverAll (snd (fire cb st)) gs)
  | e :: rest => deliverWithTimers rest st (deliver e gs)
  end.

(** The run state once the colouring check has run on [st] and [App] has
    received what it issued. *)
Definition completeLevel (st : State) (gs : GameState.t) : GameState.t :=
  deliverAll (snd (checkColoringComplete gs st)) gs.

(** The button of the completion overlay.  The overlay is rendered only in
    the [completed] phase; below the last level its button carries
    [onClick={handleNextLevel}], on the last level [onClick={onResetGame}]. *)
Definition clickOverlay (gs : GameState.t) (st : State)
  : State * list Effect :=
  match gamePhase st with
  | completed =>
      if (GameState.currentLevel gs <? Z.of_nat (length LEVELS))%Z
      then handleNextLevel gs st
      else (st, [onResetGame])
  | _ => (st, [])
  end.

(** The run state once the player has clicked the overlay button and [App]
    has received what the click issued. *)
Definition advance (st : State) (gs : GameState.t) : GameState.t :=
  deliverWithTimers (snd (clickOverlay gs st)) (fst (clickOverlay gs st)) gs.

(** One level played to the end: the colouring check completes on [st] and
    the player clicks the overlay button of the resulting page. *)
Definition playLevel (st : State) (gs : GameState.t) : GameState.t :=
  advance (fst (checkColoringComplete gs st)) (completeLevel st gs).

(** The operations that set [isPlaying]. *)
Definition startsPlay (op : Op) : bool :=
  match op with
  | opStartGame | opResetGame => true
  | _ => false
  end.

(** ** The sound manager *)

Module SoundManager.

Import QArith_base.

Inductive OscillatorType : Type := sine | square | sawtooth | triangle.

(** A JavaScript number as far as [Math.min] and [Math.max] tell values
    apart: a finite value, an infinity, or NaN.  (The sign of zero is not
    kept.) *)
Inductive Number : Type :=
  | Finite (q : Q)
  | PlusInfinity
  | MinusInfinity
  | NotANumber.

(** [Math.min(a, b)]. *)
Definition Math_min (a b : Number) : Number :=
  match a, b with
  | NotANumber, _ | _, NotANumber => NotANumber
  | MinusInfinity, _ | _, MinusInfinity => MinusInfinity
  | PlusInfinity, x | x, PlusInfinity => x
  | Finite p, Finite q => if Qle_bool p q then Finite p else Finite q
  end.

(** [Math.max(a, b)]. *)
Definition Math_max (a b : Number) : Number :=
  match a, b with
  | NotANumber, _ | _, NotANumber => NotANumber
  | PlusInfinity, _ | _, PlusInfinity => PlusInfinity
  | MinusInfinity, x | x, MinusInfinity => x
  | Finite p, Finite q => if Qle_bool p q then Finite q else Finite p
  end.

(** What [createBeepSound] closes over. *)
Record Beep : Type :=
  mkBeep { frequency : Z; duration : Q; type : OscillatorType }.

(** The fields of the class; [audioContext] is [true] when it is not
    [null]. *)
Record t : Type :=
  mk { audioContext : bool;
       sounds : list (string * Beep);
       isMuted : bool;
       volume : Number }.

(** What a call makes happen outside the manager. *)
Inductive Output : Type :=
  | tone (frequency : Z) (type : OscillatorType) (peak : Q) (duration : Q)
  | warn (text : string)
  | later (ms : nat) (soundName : string).

(** [this.sounds[name]]. *)
Fixpoint lookup (name : string) (m : list (string * Beep)) : option Beep :=
  match m with
  | [] => None
  | (k, b) :: rest => if (k =? name)%string then Some b else lookup name rest
  end.

(** [this.sounds[name] = b]. *)
Fixpoint assign (name : string) (b : Beep) (m : list (string * Beep))
  : list (string * Beep) :=
  match m with
  | [] => [(name, b)]
  | (k, x) :: rest =>
      if (k =? name)%string then (k, b) :: rest
      else (k, x) :: assign name b rest
  end.

Definition createBeepSound (name : string) (frequency : Z) (duration : Q)
    (type : OscillatorType) (m : t) : t :=
  mk (audioContext m) (assign name (mkBeep frequency duration type) (sounds m))
     (isMuted m) (volume m).

Definition loadSounds (m : t) : t :=
  let m := createBeepSound "success" 800 (2 # 10) sine m in
  let m := createBeepSound "error" 300 (3 # 10) sawtooth m in
  let m := createBeepSound "click" 600 (1 # 10) square m in
  let m := createBeepSound "drop" 500 (15 # 100) triangle m in
  let m := createBeepSound "color" 1000 (25 # 100) sine m in
  createBeepSound "complete" 1200 (4 # 10) sine m.

(** [new SoundManager()]; [supported] tells whether creating the audio
    context succeeded. *)
Definition create (supported : bool) : t :=
  loadSounds (mk supported [] false (Finite (7 # 10))).

(** The [playSound] closure of a beep, reading the manager as it is when
    called.  [None] is the [TypeError] that the gain ramp raises when handed
    a volume that is not finite. *)
Definition play (b : Beep) (m : t) : option (list Output) :=
  if negb (audioContext m) || isMuted m then Some []
  else
    match volume m with
    | Finite v => Some [tone (frequency b) (type b) v (duration b)]
    | _ => None
    end.

(** The private method [playSound]. *)
Definition playSound (soundName : string) (m : t) : list Output :=
  match lookup soundName (sounds m) with
  | Some b =>
      if negb (isMuted m) then
        match play b m with
        | Some out => out
        | None => [warn ("Could not play sound: " ++ soundName)%string]
        end
      else []
  | None => []
  end.

Definition playSuccess (m : t) : list Output := playSound "success" m.
Definition playError (m : t) : list Output := playSound "error" m.
Definition playClick (m : t) : list Output := playSound "click" m.
Definition playDrop (m : t) : list Output := playSound "drop" m.
Definition playColor (m : t) : list Output := playSound "color" m.

Definition playComplete (m : t) : list Output :=
  playSound "complete" m
    ++ [later 200 "success"; later 400 "color"; later 600 "complete"].

Inductive Ambient : Type := celebration | magic | sparkle.

Definition playAmbientSound (kind : Ambient) (m : t) : list Output :=
  match kind with
  | celebration => playComplete m
  | magic => playSound "color" m
  | sparkle => playSound "success" m
  end.

Definition setVolume (newVolume : Number) (m : t) : t :=
  mk (audioContext m) (sounds m) (isMuted m)
     (Math_max (Finite (0 # 1)) (Math_min (Finite (1 # 1)) newVolume)).

Definition getVolume (m : t) : Number := volume m.

(** [toggleMute], with the value it returns. *)
Definition toggleMute (m : t) : t * bool :=
  let muted := negb (isMuted m) in
  (mk (audioContext m) (sounds m) muted (volume m), muted).

Definition setMuted (muted : bool) (m : t) : t :=
  mk (audioContext m) (sounds m) muted (volume m).

Definition destroy (m : t) : t :=
  if audioContext m then mk false (sounds m) (isMuted m) (volume m) else m.

(** The public calls that can make a sound. *)
Inductive Call : Type :=
  | callSuccess | callError | callClick | callDrop | callColor | callComplete
  | callAmbient (kind : Ambient)
  | callTimer (soundName : string).   (* a [later] that comes due *)

Definition perform (c : Call) (m : t) : list Output :=
  match c with
  | callSuccess => playSuccess m
  | callError => playError m
  | callClick => playClick m
  | callDrop => playDrop m
  | callColor => playColor m
  | callComplete => playComplete m
  | callAmbient kind => playAmbientSound kind m
  | callTimer soundName => playSound soundName m
  end.

Definition isTone (o : Output) : bool :=
  match o with
  | tone _ _ _ _ => true
  | _ => false
  end.

End SoundManager.

(** * Properties *)

(** Projections of states built by the setters, and nothing else. *)
Ltac state_simpl :=
  cbn [fst snd negb chocolates boxes gamePhase message selectedColor showNPC
       setChocolates setBoxes setGamePhase setMessage setSelectedColor].


(** ** Level catalog *)

Section Catalog.

Lemma index_negative {A : Type} (arr : list A) (i : Z) :
  (i < 0)%Z -> Js.index arr i = None.
Proof.
  intros Hneg. unfold Js.index.
  destruct (Z.ltb_spec i 0) as [_ | Hge]; [reflexivity | lia].
Qed.

Lemma index_natural {A : Type} (arr : list A) (i : Z) :
  (0 <= i)%Z -> Js.index arr i = nth_error arr (Z.to_nat i).
Proof.
  intros Hpos. unfold Js.index.
  destruct (Z.ltb_spec i 0) as [Hlt | _]; [lia | reflexivity].
Qed.

Lemma last_level_defined :
  Js.index LEVELS (Z.of_nat (length LEVELS) - 1) = nth_error LEVELS 3.
Proof. reflexivity. Qed.

(** The lookup, with the fallback resolved. *)
Lemma currentLevelData_cases (currentLevel : Z) :
  currentLevelData currentLevel
  = nth_error LEVELS
      (if ((1 <=? currentLevel) && (currentLevel <=? 4))%Z
       then Z.to_nat (currentLevel - 1) else 3).
Proof.
  unfold currentLevelData. rewrite last_level_defined.
  destruct (Z.leb_spec 1 currentLevel) as [Hlow | Hlow]; cbn [andb].
  - rewrite index_natural by lia.
    destruct (Z.leb_spec currentLevel 4) as [Hhigh | Hhigh].
    + assert (Hk : Z.to_nat (currentLevel - 1) < 4) by lia.
      remember (Z.to_nat (currentLevel - 1)) as k eqn:Ek. clear Ek.
      do 4 (destruct k as [| k]; [reflexivity |]). lia.
    + assert (Hk : 4 <= Z.to_nat (currentLevel - 1)) by lia.
      remember (Z.to_nat (currentLevel - 1)) as k eqn:Ek. clear Ek.
      do 4 (destruct k as [| k]; [lia |]).
      cbn [nth_error LEVELS]. destruct k; reflexivity.
  - rewrite index_negative by lia. reflexivity.
Qed.

(** Level 1 is the one level with preset boxes. *)
Lemma levelAt_presetBoxes (currentLevel : Z) :
  Level.presetBoxes (levelAt currentLevel) = (currentLevel =? 1)%Z.
Proof.
  unfold levelAt. rewrite currentLevelData_cases.
  destruct (Z.leb_spec 1 currentLevel) as [Hlow | Hlow]; cbn [andb].
  - destruct (Z.leb_spec currentLevel 4) as [Hhigh | Hhigh].
    + assert (Hcases : (currentLevel = 1 \/ currentLevel = 2
                        \/ currentLevel = 3 \/ currentLevel = 4)%Z) by lia.
      destruct Hcases as [-> | [-> | [-> | ->]]]; reflexivity.
    + cbn. symmetry. apply Z.eqb_neq. lia.
  - cbn. symmetry. apply Z.eqb_neq. lia.
Qed.

End Catalog.

(** C8.  The level lookup is total: every integer index yields one of the
    four defined levels, an index inside [1, 4] yields the level at that
    position, and every index outside [1, 4] yields the last level. *)
Theorem currentLevelData_never_undefined (currentLevel : Z) :
  exists lvl : Level.t,
    currentLevelData currentLevel = Some lvl
    /\ In lvl LEVELS
    /\ ((1 <= currentLevel <= 4)%Z ->
        nth_error LEVELS (Z.to_nat (currentLevel - 1)) = Some lvl)
    /\ ((currentLevel < 1 \/ 4 < currentLevel)%Z ->
        nth_error LEVELS 3 = Some lvl).
Proof.
  rewrite currentLevelData_cases.
  destruct (Z.leb_spec 1 currentLevel) as [Hlow | Hlow]; cbn [andb].
  - destruct (Z.leb_spec currentLevel 4) as [Hhigh | Hhigh].
    + assert (Hcases : (currentLevel = 1 \/ currentLevel = 2
                        \/ currentLevel = 3 \/ currentLevel = 4)%Z) by lia.
      destruct Hcases as [-> | [-> | [-> | ->]]]; cbn;
        eexists; (split; [reflexivity |]); (split; [tauto |]);
        (split; [reflexivity | lia]).
    + cbn. eexists. split; [reflexivity |].
      split; [tauto |]. split; [lia | reflexivity].
  - cbn. eexists. split; [reflexivity |].
    split; [tauto |]. split; [lia | reflexivity].
Qed.

Lemma currentLevelData_never_undefined_witness :
  nth_error LEVELS 3 = currentLevelData 0
  /\ nth_error LEVELS 3 = currentLevelData 5
  /\ nth_error LEVELS 1 = currentLevelData 2.
Proof.
  split; [| split].
  - destruct (currentLevelData_never_undefined 0) as (lvl & Hdef & _ & _ & Hout).
    rewrite Hdef. apply Hout. lia.
  - destruct (currentLevelData_never_undefined 5) as (lvl & Hdef & _ & _ & Hout).
    rewrite Hdef. apply Hout. lia.
  - destruct (currentLevelData_never_undefined 2) as (lvl & Hdef & _ & Hin & _).
    rewrite Hdef. apply Hin. lia.
Defined.

(** ** Distribution validator *)

Section Validator.

Variable lvl : Level.t.

Lemma packingComplete_iff (st : State) :
  packingComplete lvl st = true
  <-> placedChocolates st = Level.chocolates lvl /\ boxes st <> [].
Proof.
  unfold packingComplete.
  rewrite andb_true_iff, Nat.eqb_eq, Nat.ltb_lt.
  destruct (boxes st) as [| b bs]; cbn [length]; split; intros [Hc Hb];
    split; auto; try lia; congruence.
Qed.

Lemma isEvenlyDistributed_iff (st : State) :
  isEvenlyDistributed lvl st = true
  <-> Forall (fun box => length (BoxItem.chocolates box)
                         = Level.chocolates lvl / length (boxes st))
             (boxes st).
Proof.
  unfold isEvenlyDistributed, chocolatesPerBox.
  rewrite forallb_forall, Forall_forall.
  split; intros H box Hin; specialize (H box Hin);
    [apply Nat.eqb_eq | apply Nat.eqb_eq]; exact H.
Qed.

(** Boxes that all hold [q] items hold [length bs * q] items together. *)
Lemma totalInBoxes_uniform (q : nat) (bs : list BoxItem.t) :
  forallb (fun box => length (BoxItem.chocolates box) =? q) bs = true ->
  totalInBoxes bs = length bs * q.
Proof.
  induction bs as [| b bs IH]; cbn [forallb totalInBoxes fold_right length].
  - reflexivity.
  - intros H. apply andb_true_iff in H. destruct H as [Hb Hbs].
    apply Nat.eqb_eq in Hb. fold (totalInBoxes bs). rewrite (IH Hbs). lia.
Qed.

Lemma uneven_never_valid (st : State) :
  totalInBoxes (boxes st) = Level.chocolates lvl ->
  Level.chocolates lvl mod length (boxes st) <> 0 ->
  isEvenlyDistributed lvl st = false.
Proof.
  intros Hall Hrem.
  destruct (isEvenlyDistributed lvl st) eqn:Hvalid; [| reflexivity].
  exfalso. apply Hrem.
  unfold isEvenlyDistributed in Hvalid.
  apply totalInBoxes_uniform in Hvalid.
  rewrite <- Hall, Hvalid.
  destruct (length (boxes st)) as [| k] eqn:Hk; [reflexivity |].
  rewrite Nat.mul_comm. apply Nat.Div0.mod_mul.
Qed.

End Validator.

(** C1.  The packing check reports [complete] exactly when the number of
    placed items equals the level's item count and there is at least one box;
    it reports complete and valid exactly when, moreover, every box holds
    [floor (itemCount / boxCount)] items, and complete but invalid exactly
    when some box does not.  The check moves a packing phase to coloring
    exactly in the complete and valid case. *)
Theorem checkPackingComplete_reports (lvl : Level.t) (st : State) :
  let perBox := Level.chocolates lvl / length (boxes st) in
  let even :=
    Forall (fun box => length (BoxItem.chocolates box) = perBox) (boxes st) in
  (packingComplete lvl st = true
   <-> placedChocolates st = Level.chocolates lvl /\ boxes st <> [])
  /\ (packingComplete lvl st && isEvenlyDistributed lvl st = true
      <-> placedChocolates st = Level.chocolates lvl /\ boxes st <> [] /\ even)
  /\ (packingComplete lvl st && negb (isEvenlyDistributed lvl st) = true
      <-> placedChocolates st = Level.chocolates lvl /\ boxes st <> []
          /\ ~ even)
  /\ (In playSuccessSound (snd (checkPackingComplete lvl st))
      <-> packingComplete lvl st && isEvenlyDistributed lvl st = true)
  /\ (gamePhase st = packing ->
      (gamePhase (fst (checkPackingComplete lvl st)) = coloring
       <-> packingComplete lvl st && isEvenlyDistributed lvl st = true)).
Proof.
  intros perBox even.
  pose proof (packingComplete_iff lvl st) as Hc.
  pose proof (isEvenlyDistributed_iff lvl st) as Hv.
  fold perBox in Hv. fold even in Hv.
  split; [exact Hc |].
  split; [rewrite andb_true_iff, Hc, Hv; tauto |].
  split.
  { rewrite andb_true_iff, negb_true_iff, Hc, <- Hv.
    destruct (isEvenlyDistributed lvl st); intuition congruence. }
  unfold checkPackingComplete.
  destruct (packingComplete lvl st), (isEvenlyDistributed lvl st),
    (Level.presetBoxes lvl); cbn; split.
  all: try (intros Hp; rewrite Hp).
  all: try solve [intuition congruence].
Qed.

Lemma checkPackingComplete_reports_witness :
  gamePhase (fst (checkPackingComplete (levelAt 1) Play.level1_3_3)) = coloring
  /\ gamePhase (fst (checkPackingComplete (levelAt 2) Play.level2_3_3_2))
     <> coloring.
Proof.
  split.
  - destruct (checkPackingComplete_reports (levelAt 1) Play.level1_3_3)
      as (_ & _ & _ & _ & Hphase).
    apply (Hphase eq_refl). vm_compute. reflexivity.
  - destruct (checkPackingComplete_reports (levelAt 2) Play.level2_3_3_2)
      as (_ & _ & _ & _ & Hphase).
    intros Hcoloring. apply (Hphase eq_refl) in Hcoloring.
    vm_compute in Hcoloring. discriminate Hcoloring.
Defined.

(** C2.  When every item of the level sits in a box and the item count is not
    a multiple of the number of boxes, the validator never reports a valid
    distribution and the check never leaves the packing phase; in particular
    on level 4 (seven items) every arrangement over 2, 3, 4, 5 or 6 boxes is
    rejected. *)
Theorem uneven_split_always_rejected :
  (forall (lvl : Level.t) (st : State),
      totalInBoxes (boxes st) = Level.chocolates lvl ->
      Level.chocolates lvl mod length (boxes st) <> 0 ->
      isEvenlyDistributed lvl st = false
      /\ ~ In playSuccessSound (snd (checkPackingComplete lvl st))
      /\ (gamePhase st = packing ->
          gamePhase (fst (checkPackingComplete lvl st)) = packing))
  /\ (forall st : State,
         totalInBoxes (boxes st) = Level.chocolates (levelAt 4) ->
         2 <= length (boxes st) <= 6 ->
         Level.chocolates (levelAt 4) = 7
         /\ isEvenlyDistributed (levelAt 4) st = false).
Proof.
  split.
  - intros lvl st Hall Hrem.
    pose proof (uneven_never_valid lvl st Hall Hrem) as Hinvalid.
    split; [exact Hinvalid |].
    unfold checkPackingComplete. rewrite Hinvalid.
    destruct (packingComplete lvl st), (Level.presetBoxes lvl); cbn.
    all: split; [intuition congruence | tauto].
  - intros st Hall Hk. split; [reflexivity |].
    apply uneven_never_valid; [exact Hall |].
    change (Level.chocolates (levelAt 4)) with 7.
    destruct Hk as [Hlo Hhi].
    remember (length (boxes st)) as k eqn:Ek. clear Ek Hall.
    do 7 (destruct k as [| k]; [cbn; lia |]). lia.
Qed.

Lemma uneven_split_always_rejected_witness :
  isEvenlyDistributed (levelAt 2) Play.level2_3_3_2 = false
  /\ isEvenlyDistributed (levelAt 4) Play.level4_4_3 = false.
Proof.
  destruct uneven_split_always_rejected as [Hany Hfour].
  split.
  - apply (Hany (levelAt 2) Play.level2_3_3_2); vm_compute; [reflexivity | lia].
  - apply (Hfour Play.level4_4_3); vm_compute; [reflexivity | lia].
Defined.

(** ** Retry on an invalid distribution *)

Section Retry.

Lemma emptied_all (bs : list BoxItem.t) :
  Forall (fun box => BoxItem.chocolates box = [] /\ BoxItem.color box = None)
         (map emptied bs)
  /\ boxIds (map emptied bs) = boxIds bs.
Proof.
  unfold boxIds. split.
  - apply Forall_forall. intros box Hin. apply in_map_iff in Hin.
    destruct Hin as (b & <- & _). split; reflexivity.
  - rewrite map_map. reflexivity.
Qed.

Lemma unplace_all (cs : list ChocolateItem.t) :
  Forall (fun c => ChocolateItem.placed c = false) (map unplace cs)
  /\ chocolateIds (map unplace cs) = chocolateIds cs.
Proof.
  unfold chocolateIds. split.
  - apply Forall_forall. intros c Hin. apply in_map_iff in Hin.
    destruct Hin as (c0 & <- & _). reflexivity.
  - rewrite map_map. reflexivity.
Qed.

End Retry.

(** C3 (as the code has it).  On every level other than the first (these are
    the levels without preset boxes), a complete but invalid distribution
    makes the check itself, with no delay, show the error message, play the
    error sound, empty every box (contents and colour), return every item to
    the warehouse, clear the colour selection and stay in the packing phase.
    The one deferred callback, due after 2000 ms, only blanks the message and
    leaves everything else as the reset put it. *)
Theorem invalid_distribution_resets_at_once (currentLevel : Z) (st : State) :
  currentLevel <> 1%Z ->
  packingComplete (levelAt currentLevel) st = true ->
  isEvenlyDistributed (levelAt currentLevel) st = false ->
  let shown := fst (checkPackingComplete (levelAt currentLevel) st) in
  let later := fst (fire clearMessage shown) in
  Level.presetBoxes (levelAt currentLevel) = false
  /\ snd (checkPackingComplete (levelAt currentLevel) st)
     = [playErrorSound; setTimeout clearMessage 2000]
  /\ message shown = msgWrongSplit
  /\ Forall (fun box => BoxItem.chocolates box = [] /\ BoxItem.color box = None)
            (boxes shown)
  /\ boxIds (boxes shown) = boxIds (boxes st)
  /\ Forall (fun c => ChocolateItem.placed c = false) (chocolates shown)
  /\ chocolateIds (chocolates shown) = chocolateIds (chocolates st)
  /\ selectedColor shown = None
  /\ gamePhase shown = packing
  /\ later = setMessage "" shown
  /\ snd (fire clearMessage shown) = [].
Proof.
  intros Hlevel Hcomplete Hinvalid shown later.
  assert (Hfree : Level.presetBoxes (levelAt currentLevel) = false).
  { rewrite levelAt_presetBoxes. apply Z.eqb_neq. exact Hlevel. }
  subst later shown. unfold checkPackingComplete.
  rewrite Hcomplete, Hinvalid, Hfree. state_simpl.
  pose proof (emptied_all (boxes st)) as [Hempty Hids].
  pose proof (unplace_all (chocolates st)) as [Hfree' Hcids].
  repeat (split; [solve [reflexivity | assumption] |]). reflexivity.
Qed.

Lemma invalid_distribution_resets_at_once_witness :
  let shown := fst (checkPackingComplete (levelAt 2) Play.level2_3_3_2) in
  snd (checkPackingComplete (levelAt 2) Play.level2_3_3_2)
    = [playErrorSound; setTimeout clearMessage 2000]
  /\ message shown = msgWrongSplit
  /\ gamePhase shown = packing.
Proof.
  intros shown.
  destruct (invalid_distribution_resets_at_once 2 Play.level2_3_3_2)
    as (_ & Hfx & Hmsg & _ & _ & _ & _ & _ & Hphase & _).
  - discriminate.
  - vm_compute. reflexivity.
  - vm_compute. reflexivity.
  - split; [exact Hfx | split; [exact Hmsg | exact Hphase]].
Defined.

(** C3 as worded fails: on level 2 with three boxes filled 3 / 3 / 2 the
    arrangement is already gone in the state the check returns, before any
    timer has fired. *)
Lemma reset_not_deferred_level2 :
  packingComplete (levelAt 2) Play.level2_3_3_2 = true
  /\ isEvenlyDistributed (levelAt 2) Play.level2_3_3_2 = false
  /\ ~ resetDeferred (levelAt 2) Play.level2_3_3_2.
Proof.
  split; [vm_compute; reflexivity |].
  split; [vm_compute; reflexivity |].
  unfold resetDeferred.
  destruct (checkPackingComplete (levelAt 2) Play.level2_3_3_2)
    as [shown issued] eqn:Hcheck.
  intros (Hboxes & _).
  apply (f_equal fst) in Hcheck. cbn [fst] in Hcheck. subst shown.
  apply (f_equal totalInBoxes) in Hboxes.
  vm_compute in Hboxes. discriminate Hboxes.
Qed.

(** C4.  On the first level, the one level with preset boxes, a complete but
    invalid distribution leaves the whole component state (items, boxes,
    selected colour, message, phase) as it was and issues no effect: no
    message, no sound, no timer, no reset. *)
Theorem preset_level_invalid_is_silent (st : State) :
  packingComplete (levelAt 1) st = true ->
  isEvenlyDistributed (levelAt 1) st = false ->
  Level.presetBoxes (levelAt 1) = true
  /\ checkPackingComplete (levelAt 1) st = (st, [])
  /\ (gamePhase st = packing ->
      forall gameState, completionEffect (levelAt 1) gameState st = (st, [])).
Proof.
  intros Hcomplete Hinvalid.
  assert (Hpreset : Level.presetBoxes (levelAt 1) = true)
    by (rewrite levelAt_presetBoxes; reflexivity).
  assert (Hcheck : checkPackingComplete (levelAt 1) st = (st, [])).
  { unfold checkPackingComplete.
    rewrite Hcomplete, Hinvalid, Hpreset. reflexivity. }
  split; [exact Hpreset |]. split; [exact Hcheck |].
  intros Hphase gameState. unfold completionEffect. rewrite Hphase.
  exact Hcheck.
Qed.

Lemma preset_level_invalid_is_silent_witness :
  currentLevelData 1 = Some (levelAt 1)
  /\ checkPackingComplete (levelAt 1) Play.level1_4_2 = (Play.level1_4_2, []).
Proof.
  split; [reflexivity |].
  destruct (preset_level_invalid_is_silent Play.level1_4_2)
    as (_ & Hsilent & _).
  - vm_compute. reflexivity.
  - vm_compute. reflexivity.
  - exact Hsilent.
Defined.

(** ** Dropping an item *)

Section Drop.

Variables (boxId : string) (chocolate : ChocolateItem.t).

Lemma appendTo_elsewhere (bs : list BoxItem.t) :
  ~ In boxId (boxIds bs) -> map (appendTo boxId chocolate) bs = bs.
Proof.
  induction bs as [| b bs IH]; cbn; intros Hnot; [reflexivity |].
  rewrite IH by tauto. unfold appendTo.
  destruct (String.eqb_spec (BoxItem.id b) boxId) as [Heq | _];
    [tauto | reflexivity].
Qed.

End Drop.

(** C6 (as the code has it).  A drop of an item whose [placed] flag is set
    changes nothing and issues no effect.  A drop of an unplaced item on an id
    that names no box leaves the boxes as they were, but still plays the drop
    sound and runs the placement update on the item pool. *)
Theorem handleDropChocolate_rejections (boxId : string)
    (chocolate : ChocolateItem.t) (st : State) :
  (ChocolateItem.placed chocolate = true ->
   handleDropChocolate boxId chocolate st = (st, []))
  /\ (~ In boxId (boxIds (boxes st)) ->
      boxes (fst (handleDropChocolate boxId chocolate st)) = boxes st)
  /\ (~ In boxId (boxIds (boxes st)) ->
      ChocolateItem.placed chocolate = false ->
      chocolates (fst (handleDropChocolate boxId chocolate st))
      = map (markPlaced (ChocolateItem.id chocolate)) (chocolates st)
      /\ snd (handleDropChocolate boxId chocolate st) = [playDropSound]).
Proof.
  unfold handleDropChocolate.
  split; [intros Hplaced; rewrite Hplaced; reflexivity |].
  split.
  - intros Hunknown. destruct (ChocolateItem.placed chocolate); cbn;
      [reflexivity | apply appendTo_elsewhere; exact Hunknown].
  - intros _ Hfree. rewrite Hfree. split; reflexivity.
Qed.

Lemma handleDropChocolate_rejections_witness :
  let placedItem := ChocolateItem.mk "chocolate-0" cocoa true in
  let freeItem := ChocolateItem.mk "chocolate-7" strawberry false in
  handleDropChocolate "box-18-0.25" placedItem Play.level2_3_3_2
    = (Play.level2_3_3_2, [])
  /\ boxes (fst (handleDropChocolate "box-0" freeItem (Play.fresh 2)))
     = boxes (Play.fresh 2).
Proof.
  intros placedItem freeItem. split.
  - apply (handleDropChocolate_rejections "box-18-0.25" placedItem
             Play.level2_3_3_2).
    reflexivity.
  - apply (handleDropChocolate_rejections "box-0" freeItem (Play.fresh 2)).
    vm_compute. tauto.
Defined.

(** C6 as worded fails in its second half: on a fresh level 2 (no box yet) a
    drop of the unplaced item [chocolate-0] on the id [box-0] marks that item
    placed, so the item pool is not left unchanged. *)
Lemma unknown_box_drop_changes_items :
  let item := ChocolateItem.mk "chocolate-0" cocoa false in
  let st := Play.fresh 2 in
  In item (chocolates st)
  /\ ~ In "box-0" (boxIds (boxes st))
  /\ chocolates (fst (handleDropChocolate "box-0" item st)) <> chocolates st
  /\ placedChocolates (fst (handleDropChocolate "box-0" item st)) = 1
  /\ totalInBoxes (boxes (fst (handleDropChocolate "box-0" item st))) = 0.
Proof.
  intros item st.
  split; [vm_compute; tauto |].
  split; [vm_compute; tauto |].
  split; [| split; vm_compute; reflexivity].
  intros Hsame. apply (f_equal (map ChocolateItem.placed)) in Hsame.
  vm_compute in Hsame. discriminate Hsame.
Qed.

(** ** The placement invariant *)

Section Counting.

Lemma placed_plus_unplaced (st : State) :
  placedChocolates st + unplacedChocolates st = length (chocolates st).
Proof.
  unfold placedChocolates, unplacedChocolates.
  induction (chocolates st) as [| c cs IH]; cbn; [reflexivity |].
  destruct (ChocolateItem.placed c); cbn; lia.
Qed.

Lemma markPlaced_id (cid : string) (cs : list ChocolateItem.t) :
  chocolateIds (map (markPlaced cid) cs) = chocolateIds cs.
Proof.
  unfold chocolateIds. rewrite map_map. apply map_ext.
  intros c. unfold markPlaced.
  destruct (ChocolateItem.id c =? cid)%string; reflexivity.
Qed.

Lemma markPlaced_absent (cid : string) (cs : list ChocolateItem.t) :
  ~ In cid (chocolateIds cs) -> map (markPlaced cid) cs = cs.
Proof.
  induction cs as [| c cs IH]; cbn; intros Hnot; [reflexivity |].
  rewrite IH by tauto. unfold markPlaced.
  destruct (String.eqb_spec (ChocolateItem.id c) cid) as [Heq | _];
    [tauto | reflexivity].
Qed.

(** Marking an unplaced item of a pool with distinct ids raises the number
    of placed items by exactly one. *)
Lemma markPlaced_counts_one (c : ChocolateItem.t)
    (cs : list ChocolateItem.t) :
  NoDup (chocolateIds cs) ->
  In c cs ->
  ChocolateItem.placed c = false ->
  length (filter ChocolateItem.placed
            (map (markPlaced (ChocolateItem.id c)) cs))
  = S (length (filter ChocolateItem.placed cs)).
Proof.
  intros Hnodup Hin Hfree.
  induction cs as [| x xs IH]; [destruct Hin |].
  cbn in Hnodup. apply NoDup_cons_iff in Hnodup.
  destruct Hnodup as [Hfresh Hrest].
  destruct Hin as [-> | Hin].
  - cbn [map]. rewrite markPlaced_absent by exact Hfresh.
    unfold markPlaced. rewrite String.eqb_refl. cbn. rewrite Hfree.
    reflexivity.
  - cbn [map]. unfold markPlaced at 1.
    destruct (String.eqb_spec (ChocolateItem.id x) (ChocolateItem.id c))
      as [Heq | _].
    + exfalso. apply Hfresh. rewrite Heq.
      unfold chocolateIds. apply in_map. exact Hin.
    + cbn [filter]. destruct (ChocolateItem.placed x); cbn [length];
        rewrite (IH Hrest Hin); reflexivity.
Qed.

Lemma appendTo_id (boxId : string) (c : ChocolateItem.t)
    (bs : list BoxItem.t) :
  boxIds (map (appendTo boxId c) bs) = boxIds bs.
Proof.
  unfold boxIds. rewrite map_map. apply map_ext.
  intros b. unfold appendTo.
  destruct (BoxItem.id b =? boxId)%string; reflexivity.
Qed.

(** Appending to the box named [boxId], where ids are distinct, raises the
    number of boxed items by exactly one. *)
Lemma appendTo_counts_one (boxId : string) (c : ChocolateItem.t)
    (bs : list BoxItem.t) :
  NoDup (boxIds bs) ->
  In boxId (boxIds bs) ->
  totalInBoxes (map (appendTo boxId c) bs) = S (totalInBoxes bs).
Proof.
  intros Hnodup Hin.
  induction bs as [| b rest IH]; [destruct Hin |].
  cbn in Hnodup. apply NoDup_cons_iff in Hnodup.
  destruct Hnodup as [Hfresh Hrest].
  cbn [map totalInBoxes fold_right].
  fold (totalInBoxes rest).
  fold (totalInBoxes (map (appendTo boxId c) rest)).
  unfold appendTo at 1.
  destruct (String.eqb_spec (BoxItem.id b) boxId) as [Heq | Hne].
  - subst boxId. rewrite appendTo_elsewhere by exact Hfresh.
    cbn [BoxItem.chocolates]. rewrite length_app. cbn [length]. lia.
  - destruct Hin as [Heq | Hin]; [contradiction |].
    rewrite (IH Hrest Hin). lia.
Qed.

Lemma paint_keeps (boxId : string) (color : Color.t) (bs : list BoxItem.t) :
  boxIds (map (paint boxId color) bs) = boxIds bs
  /\ totalInBoxes (map (paint boxId color) bs) = totalInBoxes bs.
Proof.
  unfold boxIds. induction bs as [| b rest [IHid IHtotal]]; cbn;
    [split; reflexivity |].
  fold (totalInBoxes rest).
  fold (totalInBoxes (map (paint boxId color) rest)).
  rewrite IHid, IHtotal. unfold paint.
  destruct (BoxItem.id b =? boxId)%string; split; reflexivity.
Qed.

Lemma emptied_total (bs : list BoxItem.t) :
  totalInBoxes (map emptied bs) = 0.
Proof.
  induction bs as [| b rest IH]; cbn; [reflexivity | exact IH].
Qed.

Lemma unplace_placed (cs : list ChocolateItem.t) :
  length (filter ChocolateItem.placed (map unplace cs)) = 0.
Proof.
  induction cs as [| c rest IH]; cbn; [reflexivity | exact IH].
Qed.

Lemma none_placed (cs : list ChocolateItem.t) :
  Forall (fun c => ChocolateItem.placed c = false) cs ->
  length (filter ChocolateItem.placed cs) = 0.
Proof.
  induction 1 as [| c rest Hc _ IH]; cbn; [reflexivity |].
  rewrite Hc. exact IH.
Qed.

Lemma totalInBoxes_app (bs cs : list BoxItem.t) :
  totalInBoxes (bs ++ cs) = totalInBoxes bs + totalInBoxes cs.
Proof.
  induction bs as [| b rest IH]; cbn; [reflexivity |].
  fold (totalInBoxes (rest ++ cs)). fold (totalInBoxes rest).
  rewrite IH. lia.
Qed.

End Counting.

Section FreshLevel.

Lemma show_injective (a b : nat) : Js.show a = Js.show b -> a = b.
Proof.
  unfold Js.show. intros Heq.
  apply (f_equal NilEmpty.uint_of_string) in Heq.
  rewrite !NilEmpty.usu in Heq. injection Heq as Heq.
  apply (f_equal Nat.of_uint) in Heq.
  rewrite !Unsigned.of_to in Heq. exact Heq.
Qed.

Lemma append_cancel (p a b : string) :
  (p ++ a)%string = (p ++ b)%string -> a = b.
Proof.
  induction p as [| ch p IH]; cbn; intros Heq; [exact Heq |].
  injection Heq as Heq. exact (IH Heq).
Qed.

Lemma pushChocolates_shape (ty : ChocolateType) (count id : nat) :
  chocolateIds (pushChocolates ty count id) = map chocolateId (seq id count)
  /\ length (pushChocolates ty count id) = count
  /\ Forall (fun c => ChocolateItem.placed c = false)
            (pushChocolates ty count id).
Proof.
  revert id. induction count as [| k IH]; intros id; cbn.
  - repeat split. constructor.
  - destruct (IH (S id)) as (Hids & Hlen & Hfree).
    unfold chocolateIds in Hids. rewrite Hids, Hlen.
    repeat split. constructor; [reflexivity | exact Hfree].
Qed.

Lemma forEachType_shape (types : list ChocolateKind.t)
    (total index id : nat) :
  let made := forEachType types total index id in
  chocolateIds made = map chocolateId (seq id (length made))
  /\ Forall (fun c => ChocolateItem.placed c = false) made.
Proof.
  revert index id. induction types as [| ty rest IH]; intros index id made;
    subst made; cbn [forEachType].
  - split; [reflexivity | constructor].
  - destruct (pushChocolates_shape (ChocolateKind.type ty)
                (typeCount total index) id) as (Hids & Hlen & Hfree).
    destruct (IH (S index) (id + typeCount total index)) as [IHids IHfree].
    split.
    + unfold chocolateIds in *. rewrite map_app, length_app, seq_app, map_app.
      rewrite Hids, Hlen, IHids. reflexivity.
    + apply Forall_app. split; assumption.
Qed.

Lemma newChocolates_length (lvl : Level.t) :
  length (newChocolates lvl) = Level.chocolates lvl.
Proof.
  unfold newChocolates. cbn [CHOCOLATE_TYPES forEachType].
  rewrite !length_app.
  repeat match goal with
         | |- context [length (pushChocolates ?ty ?n ?i)] =>
             rewrite (proj1 (proj2 (pushChocolates_shape ty n i)))
         end.
  cbn [length]. unfold typeCount.
  generalize (Level.chocolates lvl). intros n.
  pose proof (Nat.div_mod_eq n 3) as Hdiv.
  pose proof (Nat.mod_upper_bound n 3 ltac:(lia)) as Hlt.
  remember (n mod 3) as r eqn:Hr. remember (n / 3) as q eqn:Hq.
  clear Hr Hq.
  destruct r as [| [| [| r]]]; cbn [Nat.ltb Nat.leb]; lia.
Qed.

Lemma newChocolates_distinct (lvl : Level.t) :
  NoDup (chocolateIds (newChocolates lvl)).
Proof.
  unfold newChocolates.
  rewrite (proj1 (forEachType_shape CHOCOLATE_TYPES
                    (Level.chocolates lvl) 0 0)).
  apply NoDup_map_NoDup_ForallPairs; [| apply seq_NoDup].
  intros a b _ _ Heq. unfold chocolateId in Heq.
  apply append_cancel in Heq. apply show_injective. exact Heq.
Qed.

Lemma presetBoxes_distinct (now : nat) :
  NoDup (boxIds (presetBoxesFrom now 2 0)).
Proof.
  cbn. constructor; [| constructor; [intros [] | constructor]].
  intros [Heq | []].
  repeat (injection Heq as Heq).
  apply append_cancel in Heq. discriminate Heq.
Qed.

Lemma initializeLevel_balanced (lvl : Level.t) (now : nat)
    (shuffled : list ChocolateItem.t) (st0 : State) :
  Permutation shuffled (newChocolates lvl) ->
  Balanced (Level.chocolates lvl) (initializeLevel lvl now shuffled st0).
Proof.
  intros Hperm.
  assert (Hboxes :
    forall st, boxes (setMessage (levelMessage lvl) (setGamePhase packing st))
               = boxes st) by reflexivity.
  unfold initializeLevel.
  constructor.
  - destruct (Level.presetBoxes lvl); cbn.
    all: apply (Permutation_NoDup
                  (l := chocolateIds (newChocolates lvl)));
      [apply Permutation_map, Permutation_sym, Hperm
      | apply newChocolates_distinct].
  - destruct (Level.presetBoxes lvl); cbn [boxes setBoxes setMessage
      setGamePhase setChocolates boxIds map].
    + apply (presetBoxes_distinct now).
    + constructor.
  - destruct (Level.presetBoxes lvl); cbn.
    all: rewrite (Permutation_length Hperm); apply newChocolates_length.
  - assert (Hfree : Forall (fun c => ChocolateItem.placed c = false) shuffled).
    { eapply Permutation_Forall; [apply Permutation_sym, Hperm |].
      apply (proj2 (forEachType_shape CHOCOLATE_TYPES
                      (Level.chocolates lvl) 0 0)). }
    unfold placedChocolates.
    destruct (Level.presetBoxes lvl); cbn; apply none_placed; exact Hfree.
Qed.

End FreshLevel.

Section Preservation.

Variables (lvl : Level.t) (gameState : GameState.t) (total : nat).

Lemma Balanced_same_content (st st' : State) :
  chocolates st' = chocolates st ->
  boxes st' = boxes st ->
  Balanced total st -> Balanced total st'.
Proof.
  intros Hc Hb [Hids Hbids Hpool Hplaced].
  constructor; unfold placedChocolates in *; rewrite ?Hc, ?Hb; assumption.
Qed.

Lemma Balanced_cleared (st st' : State) :
  chocolates st' = map unplace (chocolates st) ->
  NoDup (boxIds (boxes st')) ->
  totalInBoxes (boxes st') = 0 ->
  Balanced total st -> Balanced total st'.
Proof.
  intros Hc Hb Hzero [Hids Hbids Hpool Hplaced].
  constructor; unfold placedChocolates; rewrite ?Hc.
  - rewrite (proj2 (unplace_all (chocolates st))). exact Hids.
  - exact Hb.
  - rewrite length_map. exact Hpool.
  - rewrite unplace_placed, Hzero. reflexivity.
Qed.

Lemma handleDropChocolate_balanced (boxId : string)
    (chocolate : ChocolateItem.t) (st : State) :
  offered st (DropChocolate boxId chocolate) ->
  Balanced total st ->
  Balanced total (fst (handleDropChocolate boxId chocolate st)).
Proof.
  intros (Hin & Hfree & Hbox) [Hids Hbids Hpool Hplaced].
  unfold handleDropChocolate. rewrite Hfree.
  constructor; unfold placedChocolates in *; state_simpl.
  - rewrite markPlaced_id. exact Hids.
  - rewrite appendTo_id. exact Hbids.
  - rewrite length_map. exact Hpool.
  - rewrite (markPlaced_counts_one chocolate (chocolates st) Hids Hin Hfree).
    rewrite (appendTo_counts_one boxId chocolate (boxes st) Hbids Hbox).
    rewrite Hplaced. reflexivity.
Qed.

Lemma handleDropColor_balanced (boxId : string) (color : Color.t)
    (st : State) :
  Balanced total st ->
  Balanced total (fst (handleDropColor boxId color st)).
Proof.
  intros [Hids Hbids Hpool Hplaced].
  destruct (paint_keeps boxId color (boxes st)) as [Hsame Htotal].
  constructor; unfold placedChocolates in *; unfold handleDropColor;
    state_simpl; rewrite ?Hsame, ?Htotal; assumption.
Qed.

Lemma addBox_balanced (now : nat) (rnd : string) (st : State) :
  offered st (ClickAddBox now rnd) ->
  Balanced total st ->
  Balanced total (fst (addBox now rnd st)).
Proof.
  intros Hfresh [Hids Hbids Hpool Hplaced].
  constructor; unfold placedChocolates in *; unfold addBox; state_simpl;
    try assumption.
  - unfold boxIds. rewrite map_app. cbn [map].
    apply NoDup_app;
      [exact Hbids | constructor; [intros [] | constructor] |].
    intros x Hx [<- | []]. exact (Hfresh Hx).
  - rewrite totalInBoxes_app. cbn [totalInBoxes fold_right length
      BoxItem.chocolates]. lia.
Qed.

Lemma clearBoxes_balanced (st : State) :
  Balanced total st -> Balanced total (fst (clearBoxes lvl st)).
Proof.
  intros Hbal. unfold clearBoxes.
  destruct (Level.presetBoxes lvl); [exact Hbal |].
  apply (Balanced_cleared st); [reflexivity | constructor | reflexivity
                               | exact Hbal].
Qed.

Lemma checkPackingComplete_balanced (st : State) :
  Balanced total st -> Balanced total (fst (checkPackingComplete lvl st)).
Proof.
  intros Hbal. unfold checkPackingComplete.
  destruct (packingComplete lvl st); [| exact Hbal].
  destruct (isEvenlyDistributed lvl st).
  - apply (Balanced_same_content st); [reflexivity | reflexivity | exact Hbal].
  - destruct (Level.presetBoxes lvl); [exact Hbal |].
    apply (Balanced_cleared st); state_simpl.
    + reflexivity.
    + rewrite (proj2 (emptied_all (boxes st))). apply Hbal.
    + apply emptied_total.
    + exact Hbal.
Qed.

Lemma checkColoringComplete_balanced (st : State) :
  Balanced total st ->
  Balanced total (fst (checkColoringComplete gameState st)).
Proof.
  intros Hbal. unfold checkColoringComplete.
  destruct (coloringComplete st); [| exact Hbal].
  apply (Balanced_same_content st); [reflexivity | reflexivity | exact Hbal].
Qed.

Lemma handleEvent_balanced (ev : Event) (st : State) :
  offered st ev ->
  Balanced total st ->
  Balanced total (fst (handleEvent lvl gameState ev st)).
Proof.
  intros Hoffered Hbal.
  destruct ev as [boxId chocolate | boxId colorName | boxId | color
                 | now rnd | |]; cbn [handleEvent].
  - destruct (boxPhase st); try exact Hbal.
    apply handleDropChocolate_balanced; assumption.
  - destruct (boxPhase st); try exact Hbal.
    destruct (find _ COLORS) as [colorItem |]; [| exact Hbal].
    apply handleDropColor_balanced; exact Hbal.
  - destruct (boxPhase st), (selectedColor st) as [color |]; try exact Hbal.
    apply handleDropColor_balanced; exact Hbal.
  - destruct (gamePhase st); try exact Hbal.
    apply (Balanced_same_content st); [reflexivity | reflexivity | exact Hbal].
  - unfold clickAddBox. destruct (Level.presetBoxes lvl); [exact Hbal |].
    apply addBox_balanced; assumption.
  - destruct (gamePhase st); try exact Hbal.
    apply clearBoxes_balanced; exact Hbal.
  - unfold completionEffect. destruct (gamePhase st); try exact Hbal.
    + apply checkPackingComplete_balanced; exact Hbal.
    + apply checkColoringComplete_balanced; exact Hbal.
Qed.

Lemma run_balanced (evs : list Event) (st : State) :
  offeredAll lvl gameState evs st ->
  Balanced total st ->
  Balanced total (fst (run lvl gameState evs st)).
Proof.
  revert st. induction evs as [| ev rest IH]; intros st Hall Hbal.
  - exact Hbal.
  - destruct Hall as [Hoffered Hrest]. cbn [run].
    pose proof (handleEvent_balanced ev st Hoffered Hbal) as Hstep.
    destruct (handleEvent lvl gameState ev st) as [st1 es1].
    cbn [fst] in Hstep, Hrest.
    specialize (IH st1 Hrest Hstep).
    destruct (run lvl gameState rest st1) as [st2 es2]. exact IH.
Qed.

End Preservation.

(** C5 (as the code has it).  Start from a freshly initialised level, whatever
    rearrangement the shuffle produced, and deliver any sequence of events in
    which every drop carries an unplaced item of the pool onto a box that
    exists and every added box gets an id not yet in use.  Then in the state
    reached the items held in boxes plus the unplaced items number exactly
    the level's item count, and the placed items number exactly the items
    held in boxes. *)
Theorem placement_invariant (lvl : Level.t) (gameState : GameState.t)
    (now : nat) (shuffled : list ChocolateItem.t) (st0 : State)
    (evs : list Event) :
  Permutation shuffled (newChocolates lvl) ->
  offeredAll lvl gameState evs (initializeLevel lvl now shuffled st0) ->
  let st := fst (run lvl gameState evs (initializeLevel lvl now shuffled st0)) in
  totalInBoxes (boxes st) + unplacedChocolates st = Level.chocolates lvl
  /\ placedChocolates st = totalInBoxes (boxes st).
Proof.
  intros Hperm Hall st.
  pose proof (initializeLevel_balanced lvl now shuffled st0 Hperm) as Hinit.
  pose proof (run_balanced lvl gameState (Level.chocolates lvl) evs _ Hall Hinit)
    as [Hids Hbids Hpool Hplaced].
  fold st in Hpool, Hplaced.
  pose proof (placed_plus_unplaced st) as Hsplit.
  split; [lia | exact Hplaced].
Qed.

Lemma placement_invariant_witness :
  totalInBoxes (boxes Play.level2_3_3_2)
    + unplacedChocolates Play.level2_3_3_2 = 8
  /\ placedChocolates Play.level2_3_3_2
     = totalInBoxes (boxes Play.level2_3_3_2).
Proof.
  apply (placement_invariant (levelAt 2) (GameState.mk 2 0 true 0) 17
           (newChocolates (levelAt 2)) initialState).
  - apply Permutation_refl.
  - vm_compute. intuition discriminate.
Defined.

(** C5 as worded fails: on a fresh level 2, after one box has been added, a
    drop of the unplaced item [chocolate-0] on an id that names no box marks
    the item placed without putting it in any box. *)
Lemma stray_drop_breaks_invariant :
  let item := ChocolateItem.mk "chocolate-0" cocoa false in
  let st := Play.after 2 [ClickAddBox 18 "0.25"; DropChocolate "box-0" item] in
  In item (chocolates (Play.fresh 2))
  /\ placedChocolates st = 1
  /\ totalInBoxes (boxes st) = 0
  /\ totalInBoxes (boxes st) + unplacedChocolates st
     <> Level.chocolates (levelAt 2).
Proof.
  intros item st.
  split; [vm_compute; tauto |].
  split; [vm_compute; reflexivity |].
  split; [vm_compute; reflexivity |].
  vm_compute. discriminate.
Qed.

(** ** Completion of the colouring phase *)

Section Colouring.

Lemma palette_truthy (c : Color.t) :
  In c COLORS -> Js.truthy (Some (Color.color c)) = true.
Proof.
  cbn. intros [<- | [<- | [<- | []]]]; reflexivity.
Qed.

Lemma coloringComplete_iff (st : State) :
  paletteColoured (boxes st) ->
  coloringComplete st = true
  <-> boxes st <> []
      /\ Forall (fun box => BoxItem.color box <> None) (boxes st).
Proof.
  intros Hpalette. unfold coloringComplete.
  rewrite andb_true_iff, Nat.ltb_lt, forallb_forall, Forall_forall.
  unfold paletteColoured in Hpalette. rewrite Forall_forall in Hpalette.
  split.
  - intros [Hlen Hall]. split.
    + intros Hnil. rewrite Hnil in Hlen. cbn in Hlen. lia.
    + intros box Hin Hnone. specialize (Hall box Hin).
      rewrite Hnone in Hall. discriminate Hall.
  - intros [Hne Hall]. split.
    + destruct (boxes st); [congruence | cbn; lia].
    + intros box Hin.
      destruct (Hpalette box Hin) as [Hnone | (c & Hc & Hsome)].
      * exfalso. exact (Hall box Hin Hnone).
      * rewrite Hsome. apply palette_truthy. exact Hc.
Qed.

Lemma handleDropColor_palette (boxId : string) (color : Color.t)
    (st : State) :
  In color COLORS ->
  paletteColoured (boxes st) ->
  paletteColoured (boxes (fst (handleDropColor boxId color st))).
Proof.
  intros Hin Hpalette. unfold handleDropColor. state_simpl.
  unfold paletteColoured in *. rewrite Forall_forall in *.
  intros box Hbox. apply in_map_iff in Hbox.
  destruct Hbox as (b & <- & Hb). unfold paint.
  destruct (BoxItem.id b =? boxId)%string; [| exact (Hpalette b Hb)].
  right. exists color. split; [exact Hin | reflexivity].
Qed.

Lemma paletteColoured_same_colours (f : BoxItem.t -> BoxItem.t)
    (bs : list BoxItem.t) :
  (forall box, BoxItem.color (f box) = BoxItem.color box
               \/ BoxItem.color (f box) = None) ->
  paletteColoured bs -> paletteColoured (map f bs).
Proof.
  intros Hf Hpalette. unfold paletteColoured in *. rewrite Forall_forall in *.
  intros box Hbox. apply in_map_iff in Hbox. destruct Hbox as (b & <- & Hb).
  destruct (Hf b) as [-> | ->]; [exact (Hpalette b Hb) | left; reflexivity].
Qed.

(** Every state the page reaches has its boxes uncoloured or coloured from
    the palette, and so has the colour selection. *)
Lemma handleEvent_palette (lvl : Level.t) (gameState : GameState.t)
    (ev : Event) (st : State) :
  paletteEvent ev ->
  paletteColoured (boxes st) /\ paletteSelected st ->
  paletteColoured (boxes (fst (handleEvent lvl gameState ev st)))
  /\ paletteSelected (fst (handleEvent lvl gameState ev st)).
Proof.
  intros Hev [Hboxes Hsel].
  destruct ev as [boxId chocolate | boxId colorName | boxId | color
                 | now rnd | |]; cbn [handleEvent].
  - destruct (boxPhase st); try (split; assumption).
    unfold handleDropChocolate.
    destruct (ChocolateItem.placed chocolate); [split; assumption |].
    state_simpl. split; [| exact Hsel].
    apply paletteColoured_same_colours; [| exact Hboxes].
    intros box. left. unfold appendTo.
    destruct (BoxItem.id box =? boxId)%string; reflexivity.
  - destruct (boxPhase st); try (split; assumption).
    destruct (find _ COLORS) as [colorItem |] eqn:Hfind;
      [| split; assumption].
    apply find_some in Hfind. destruct Hfind as [Hin _].
    split; [apply handleDropColor_palette; assumption | exact Hsel].
  - destruct (boxPhase st); destruct (selectedColor st) as [color |] eqn:Hcolor;
      try (split; assumption).
    assert (Hin : In color COLORS)
      by (unfold paletteSelected in Hsel; rewrite Hcolor in Hsel; exact Hsel).
    split; [apply handleDropColor_palette; assumption |].
    unfold paletteSelected, handleDropColor. state_simpl.
    rewrite Hcolor. exact Hin.
  - destruct (gamePhase st); split; assumption.
  - unfold clickAddBox. destruct (Level.presetBoxes lvl);
      [split; assumption |].
    unfold addBox. state_simpl. split; [| exact Hsel].
    unfold paletteColoured. apply Forall_app. split; [exact Hboxes |].
    constructor; [left; reflexivity | constructor].
  - destruct (gamePhase st); try (split; assumption).
    unfold clearBoxes. destruct (Level.presetBoxes lvl);
      [split; assumption |].
    state_simpl. split; [constructor | exact I].
  - unfold completionEffect.
    destruct (gamePhase st); try (split; assumption).
    + unfold checkPackingComplete.
      destruct (packingComplete lvl st); [| split; assumption].
      destruct (isEvenlyDistributed lvl st); [split; assumption |].
      destruct (Level.presetBoxes lvl); [split; assumption |].
      state_simpl. split; [| exact I].
      apply paletteColoured_same_colours; [| exact Hboxes].
      intros box. right. reflexivity.
    + unfold checkColoringComplete.
      destruct (coloringComplete st); split; assumption.
Qed.

Lemma run_palette (lvl : Level.t) (gameState : GameState.t)
    (evs : list Event) (st : State) :
  Forall paletteEvent evs ->
  paletteColoured (boxes st) /\ paletteSelected st ->
  paletteColoured (boxes (fst (run lvl gameState evs st)))
  /\ paletteSelected (fst (run lvl gameState evs st)).
Proof.
  intros Hevs. revert st.
  induction Hevs as [| ev rest Hev _ IH]; intros st Hst; [exact Hst |].
  cbn [run].
  pose proof (handleEvent_palette lvl gameState ev st Hev Hst) as Hstep.
  destruct (handleEvent lvl gameState ev st) as [st1 es1]. cbn [fst] in Hstep.
  specialize (IH st1 Hstep).
  destruct (run lvl gameState rest st1) as [st2 es2]. exact IH.
Qed.

Lemma initializeLevel_palette (lvl : Level.t) (now : nat)
    (shuffled : list ChocolateItem.t) (st0 : State) :
  paletteColoured (boxes (initializeLevel lvl now shuffled st0)).
Proof.
  unfold initializeLevel. destruct (Level.presetBoxes lvl); state_simpl.
  - repeat constructor.
  - constructor.
Qed.

End Colouring.

(** C7.  When the colouring check runs on a non-empty collection of boxes
    that all carry a colour, the phase becomes [completed] and [App] receives
    [onAwardPoints(10)], so the run score grows by exactly 10.  On level 4
    the check also issues [onCompleteRun] exactly once, after the award, so
    the lifetime total afterwards is the prior total plus the run score
    (which by then includes the 10 points); on any other level the total is
    untouched.  The completion effect does nothing more on the resulting
    state, so the fold is not repeated. *)
Theorem coloring_completion_scores (lvl : Level.t) (gameState : GameState.t)
    (st : State) :
  boxes st <> [] ->
  Forall (fun box => BoxItem.color box <> None) (boxes st) ->
  paletteColoured (boxes st) ->
  let shown := fst (checkColoringComplete gameState st) in
  let issued := snd (checkColoringComplete gameState st) in
  let after := deliverAll issued gameState in
  gamePhase shown = completed
  /\ GameState.score after = (GameState.score gameState + 10)%Z
  /\ (GameState.currentLevel gameState = 4%Z ->
      length (filter isCompleteRun issued) = 1
      /\ GameState.totalScore after
         = (GameState.totalScore gameState + GameState.score after)%Z)
  /\ (GameState.currentLevel gameState <> 4%Z ->
      length (filter isCompleteRun issued) = 0
      /\ GameState.totalScore after = GameState.totalScore gameState)
  /\ completionEffect lvl after shown = (shown, []).
Proof.
  intros Hne Hall Hpalette shown issued after.
  assert (Hdone : coloringComplete st = true)
    by (apply coloringComplete_iff; [exact Hpalette | split; assumption]).
  subst after issued shown. unfold checkColoringComplete. rewrite Hdone.
  change (Z.of_nat (length LEVELS)) with 4%Z.
  destruct (Z.eqb_spec (GameState.currentLevel gameState) 4) as [Hlast | Hnot];
    cbn; repeat split; try reflexivity; try lia; intros; try lia; congruence.
Qed.

Lemma coloring_completion_scores_witness :
  let gameState := GameState.mk 4 30 true 120 in
  let after :=
    deliverAll (snd (checkColoringComplete gameState Play.level4_coloured))
               gameState in
  gamePhase (fst (checkColoringComplete gameState Play.level4_coloured))
    = completed
  /\ GameState.score after = 40%Z
  /\ GameState.totalScore after = 160%Z.
Proof.
  intros gameState after.
  destruct (coloring_completion_scores (levelAt 4) gameState
              Play.level4_coloured)
    as (Hphase & Hscore & Hlast & _).
  - vm_compute. discriminate.
  - vm_compute. repeat constructor; discriminate.
  - vm_compute. constructor; [| constructor].
    right. eexists. split; [left; reflexivity | reflexivity].
  - destruct (Hlast eq_refl) as [_ Htotal].
    split; [exact Hphase |]. split; [exact Hscore |].
    fold after in Htotal, Hscore. rewrite Htotal, Hscore. reflexivity.
Defined.

(** ** Adding a box *)

(** C9.  [addBox] appends exactly one box, with no chocolates and no colour,
    after the existing boxes and touches nothing else.  It is reachable only
    on a level without preset boxes: there the add-box button calls it, while
    on a preset-box level the button is disabled, the click is dropped
    without any effect and the box collection stays as it was. *)
Theorem addBox_only_without_presets (lvl : Level.t) (now : nat) (rnd : string)
    (st : State) :
  let added := fst (addBox now rnd st) in
  boxes added = boxes st ++ [BoxItem.mk (newBoxId now rnd) [] None]
  /\ length (boxes added) = S (length (boxes st))
  /\ chocolates added = chocolates st
  /\ gamePhase added = gamePhase st
  /\ (Level.presetBoxes lvl = false ->
      clickAddBox lvl now rnd st = addBox now rnd st)
  /\ (Level.presetBoxes lvl = true ->
      clickAddBox lvl now rnd st = (st, [])
      /\ boxes (fst (handleEvent lvl (GameState.mk 1 0 true 0)
                       (ClickAddBox now rnd) st)) = boxes st).
Proof.
  intros added. subst added. unfold addBox, clickAddBox. state_simpl.
  split; [reflexivity |].
  split; [rewrite length_app; cbn [length]; lia |].
  split; [reflexivity |]. split; [reflexivity |].
  split; intros Hpreset; cbn [handleEvent]; unfold clickAddBox;
    rewrite Hpreset; [reflexivity | split; reflexivity].
Qed.

Lemma addBox_only_without_presets_witness :
  clickAddBox (levelAt 1) 18 "0.25" (Play.fresh 1) = (Play.fresh 1, [])
  /\ clickAddBox (levelAt 2) 18 "0.25" (Play.fresh 2)
     = addBox 18 "0.25" (Play.fresh 2).
Proof.
  split.
  - destruct (addBox_only_without_presets (levelAt 1) 18 "0.25" (Play.fresh 1))
      as (_ & _ & _ & _ & _ & Hpreset).
    destruct (Hpreset eq_refl) as [Hdropped _]. exact Hdropped.
  - destruct (addBox_only_without_presets (levelAt 2) 18 "0.25" (Play.fresh 2))
      as (_ & _ & _ & _ & Hfree & _).
    exact (Hfree eq_refl).
Defined.

(** ** Score accumulation *)

Section Score.

Open Scope Z_scope.

Lemma applyOp_score_nonneg (op : Op) (gs : GameState.t) :
  levelPoints op ->
  0 <= GameState.score gs -> 0 <= GameState.score (applyOp op gs).
Proof.
  destruct op; cbn; intros Hop Hscore; lia.
Qed.

Lemma applyOp_totalScore (op : Op) (gs : GameState.t) :
  GameState.totalScore (applyOp op gs)
  = match op with
    | opCompleteRun => GameState.totalScore gs + GameState.score gs
    | _ => GameState.totalScore gs
    end.
Proof.
  destruct op; reflexivity.
Qed.

Lemma runOps_score_nonneg (ops : list Op) (gs : GameState.t) :
  Forall levelPoints ops ->
  0 <= GameState.score gs -> 0 <= GameState.score (runOps ops gs).
Proof.
  intros Hops. revert gs.
  induction Hops as [| op ops Hop _ IH]; intros gs Hscore.
  - exact Hscore.
  - change (runOps (op :: ops) gs) with (runOps ops (applyOp op gs)).
    apply IH. apply applyOp_score_nonneg; assumption.
Qed.

Lemma runOps_totalScore_grows (ops : list Op) (gs : GameState.t) :
  Forall levelPoints ops ->
  0 <= GameState.score gs ->
  GameState.totalScore gs <= GameState.totalScore (runOps ops gs).
Proof.
  intros Hops. revert gs.
  induction Hops as [| op ops Hop _ IH]; intros gs Hscore.
  - cbn. lia.
  - change (runOps (op :: ops) gs) with (runOps ops (applyOp op gs)).
    pose proof (applyOp_score_nonneg op gs Hop Hscore) as Hnext.
    specialize (IH (applyOp op gs) Hnext).
    rewrite applyOp_totalScore in IH.
    destruct op; cbn beta iota in IH; lia.
Qed.

End Score.

(** C10.  Along every sequence of [startGame], [awardPoints(10)],
    [nextLevel], [resetGame] and [completeRun] from the initial run state,
    the run score is never negative and the lifetime total never decreases:
    continuing any such sequence by any other leaves a total at least as
    large.  Only [completeRun] changes the total, by adding the current run
    score; every other operation leaves it as it was. *)
Theorem totalScore_never_decreases (ops more : list Op) :
  Forall levelPoints ops ->
  Forall levelPoints more ->
  let reached := runOps ops initialGameState in
  (0 <= GameState.score reached)%Z
  /\ (GameState.totalScore reached
      <= GameState.totalScore (runOps more reached))%Z
  /\ (forall op : Op,
         op <> opCompleteRun ->
         GameState.totalScore (applyOp op reached)
         = GameState.totalScore reached)
  /\ GameState.totalScore (applyOp opCompleteRun reached)
     = (GameState.totalScore reached + GameState.score reached)%Z.
Proof.
  intros Hops Hmore reached.
  assert (Hscore : (0 <= GameState.score reached)%Z)
    by (apply runOps_score_nonneg; [exact Hops | cbn; lia]).
  split; [exact Hscore |].
  split; [apply runOps_totalScore_grows; assumption |].
  split; [| reflexivity].
  intros op Hop. rewrite applyOp_totalScore.
  destruct op; try reflexivity. congruence.
Qed.

Lemma totalScore_never_decreases_witness :
  let ops := [opStartGame; opAwardPoints 10; opNextLevel; opAwardPoints 10] in
  let more := [opCompleteRun; opResetGame; opAwardPoints 10; opCompleteRun] in
  (GameState.totalScore (runOps ops initialGameState)
   <= GameState.totalScore (runOps more (runOps ops initialGameState)))%Z.
Proof.
  intros ops more.
  destruct (totalScore_never_decreases ops more) as (_ & Hgrows & _).
  - repeat constructor.
  - repeat constructor.
  - exact Hgrows.
Defined.

(** * Further properties of the code *)

(** ** A freshly initialised level *)

Section Pool.

Lemma filter_length_permutation {A : Type} (f : A -> bool) (l l' : list A) :
  Permutation l l' -> length (filter f l) = length (filter f l').
Proof.
  induction 1 as [| x l l' _ IH | x y l | l l' l'' _ IH1 _ IH2]; cbn.
  - reflexivity.
  - destruct (f x); cbn; rewrite IH; reflexivity.
  - destruct (f x), (f y); reflexivity.
  - rewrite IH1. exact IH2.
Qed.

Lemma countType_pushChocolates (ty made : ChocolateType) (count id : nat) :
  countType ty (pushChocolates made count id)
  = if typeEqb made ty then count else 0.
Proof.
  unfold countType. revert id.
  induction count as [| k IH]; intros id; cbn.
  - destruct (typeEqb made ty); reflexivity.
  - specialize (IH (S id)).
    destruct (typeEqb made ty); cbn; rewrite IH; reflexivity.
Qed.

Lemma countType_app (ty : ChocolateType) (a b : list ChocolateItem.t) :
  countType ty (a ++ b) = countType ty a + countType ty b.
Proof.
  unfold countType. rewrite filter_app, length_app. reflexivity.
Qed.

Lemma countType_newChocolates (lvl : Level.t) :
  countType cocoa (newChocolates lvl) = typeCount (Level.chocolates lvl) 0
  /\ countType orange (newChocolates lvl) = typeCount (Level.chocolates lvl) 1
  /\ countType strawberry (newChocolates lvl)
     = typeCount (Level.chocolates lvl) 2.
Proof.
  unfold newChocolates. cbn [CHOCOLATE_TYPES forEachType ChocolateKind.type].
  rewrite !countType_app, !countType_pushChocolates. cbn [typeEqb].
  repeat split; cbn [countType filter length]; lia.
Qed.

Lemma fresh_nothing_placed (lvl : Level.t) (now : nat)
    (shuffled : list ChocolateItem.t) (st0 : State) :
  Permutation shuffled (newChocolates lvl) ->
  chocolates (initializeLevel lvl now shuffled st0) = shuffled
  /\ Forall (fun c => ChocolateItem.placed c = false) shuffled
  /\ placedChocolates (initializeLevel lvl now shuffled st0) = 0.
Proof.
  intros Hperm.
  assert (Hchoc : chocolates (initializeLevel lvl now shuffled st0) = shuffled)
    by (unfold initializeLevel; destruct (Level.presetBoxes lvl); reflexivity).
  assert (Hfree : Forall (fun c => ChocolateItem.placed c = false) shuffled).
  { eapply Permutation_Forall; [apply Permutation_sym, Hperm |].
    apply (proj2 (forEachType_shape CHOCOLATE_TYPES
                    (Level.chocolates lvl) 0 0)). }
  split; [exact Hchoc |]. split; [exact Hfree |].
  unfold placedChocolates. rewrite Hchoc. apply none_placed, Hfree.
Qed.

End Pool.

(** X1.  Whatever rearrangement the shuffle leaves, a freshly initialised
    level has exactly as many items as the level asks for, their ids are
    [chocolate-0] ... [chocolate-(n-1)] without repetition, and none of them
    is placed. *)
Theorem initializeLevel_pool (lvl : Level.t) (now : nat)
    (shuffled : list ChocolateItem.t) (st0 : State) :
  Permutation shuffled (newChocolates lvl) ->
  let st := initializeLevel lvl now shuffled st0 in
  length (chocolates st) = Level.chocolates lvl
  /\ NoDup (chocolateIds (chocolates st))
  /\ Permutation (chocolateIds (chocolates st))
       (map chocolateId (seq 0 (Level.chocolates lvl)))
  /\ Forall (fun c => ChocolateItem.placed c = false) (chocolates st)
  /\ placedChocolates st = 0
  /\ unplacedChocolates st = Level.chocolates lvl.
Proof.
  intros Hperm st.
  pose proof (initializeLevel_balanced lvl now shuffled st0 Hperm)
    as [Hids _ Hpool _].
  fold st in Hids, Hpool.
  assert (Hchoc : chocolates st = shuffled)
    by (subst st; unfold initializeLevel;
        destruct (Level.presetBoxes lvl); reflexivity).
  assert (Hfree : Forall (fun c => ChocolateItem.placed c = false) shuffled).
  { eapply Permutation_Forall; [apply Permutation_sym, Hperm |].
    apply (proj2 (forEachType_shape CHOCOLATE_TYPES
                    (Level.chocolates lvl) 0 0)). }
  assert (Hplaced : placedChocolates st = 0)
    by (unfold placedChocolates; rewrite Hchoc; apply none_placed, Hfree).
  pose proof (placed_plus_unplaced st) as Hsplit.
  split; [exact Hpool |]. split; [exact Hids |].
  split.
  { assert (Hshape : chocolateIds (newChocolates lvl)
                     = map chocolateId (seq 0 (Level.chocolates lvl))).
    { rewrite <- (newChocolates_length lvl).
      exact (proj1 (forEachType_shape CHOCOLATE_TYPES
                      (Level.chocolates lvl) 0 0)). }
    rewrite Hchoc, <- Hshape.
    apply Permutation_map. exact Hperm. }
  split; [rewrite Hchoc; exact Hfree |].
  split; [exact Hplaced | lia].
Qed.

Lemma initializeLevel_pool_witness :
  length (chocolates (Play.fresh 4)) = 7
  /\ NoDup (chocolateIds (chocolates (Play.fresh 4))).
Proof.
  destruct (initializeLevel_pool (levelAt 4) 17 (newChocolates (levelAt 4))
              initialState (Permutation_refl _))
    as (Hlen & Hids & _).
  split; [exact Hlen | exact Hids].
Defined.

(** X2.  The three chocolate types share the items of a fresh level as
    evenly as possible: strawberry gets [floor (n / 3)], the counts never
    increase from cocoa to orange to strawberry, cocoa has at most one more
    than strawberry, and together they are all [n] items. *)
Theorem initializeLevel_types (lvl : Level.t) (now : nat)
    (shuffled : list ChocolateItem.t) (st0 : State) :
  Permutation shuffled (newChocolates lvl) ->
  let pool := chocolates (initializeLevel lvl now shuffled st0) in
  let n := Level.chocolates lvl in
  countType cocoa pool + countType orange pool + countType strawberry pool = n
  /\ countType strawberry pool = n / 3
  /\ countType strawberry pool <= countType orange pool
  /\ countType orange pool <= countType cocoa pool
  /\ countType cocoa pool <= countType strawberry pool + 1.
Proof.
  intros Hperm pool n.
  assert (Hpool : pool = shuffled)
    by (subst pool; unfold initializeLevel;
        destruct (Level.presetBoxes lvl); reflexivity).
  assert (Hcount : forall ty,
             countType ty pool = countType ty (newChocolates lvl)).
  { intros ty. rewrite Hpool. unfold countType.
    apply filter_length_permutation. exact Hperm. }
  rewrite !Hcount.
  destruct (countType_newChocolates lvl) as (-> & -> & ->).
  fold n. unfold typeCount.
  pose proof (Nat.div_mod_eq n 3) as Hdiv.
  pose proof (Nat.mod_upper_bound n 3 ltac:(lia)) as Hlt.
  remember (n mod 3) as r eqn:Hr. remember (n / 3) as q eqn:Hq.
  clear Hr Hq.
  destruct r as [| [| [| r]]]; cbn [Nat.ltb Nat.leb]; lia.
Qed.

Lemma initializeLevel_types_witness :
  let pool := chocolates (Play.fresh 2) in
  countType cocoa pool + countType orange pool + countType strawberry pool = 8
  /\ countType strawberry pool = 2.
Proof.
  intros pool.
  destruct (initializeLevel_types (levelAt 2) 17 (newChocolates (levelAt 2))
              initialState (Permutation_refl _))
    as (Hsum & Hstraw & _).
  split; [exact Hsum | exact Hstraw].
Defined.

(** X3.  A level with preset boxes starts with exactly two boxes, empty,
    uncoloured and with different ids whatever the clock reads; any other
    level starts without a box.  Either way the level starts in the packing
    phase, keeps the colour selection it inherited, and (having at least one
    item) is not complete, so the completion effect leaves it alone. *)
Theorem initializeLevel_boxes (lvl : Level.t) (gameState : GameState.t)
    (now : nat) (shuffled : list ChocolateItem.t) (st0 : State) :
  Permutation shuffled (newChocolates lvl) ->
  0 < Level.chocolates lvl ->
  let st := initializeLevel lvl now shuffled st0 in
  length (boxes st) = (if Level.presetBoxes lvl then 2 else 0)
  /\ NoDup (boxIds (boxes st))
  /\ Forall (fun box => BoxItem.chocolates box = [] /\ BoxItem.color box = None)
            (boxes st)
  /\ gamePhase st = packing
  /\ selectedColor st = selectedColor st0
  /\ completionEffect lvl gameState st = (st, []).
Proof.
  intros Hperm Hpos st.
  pose proof (initializeLevel_balanced lvl now shuffled st0 Hperm)
    as [_ Hbids _ Hplaced].
  destruct (fresh_nothing_placed lvl now shuffled st0 Hperm)
    as (_ & _ & Hzero).
  fold st in Hbids, Hplaced, Hzero.
  assert (Hphase : gamePhase st = packing)
    by (subst st; unfold initializeLevel;
        destruct (Level.presetBoxes lvl); reflexivity).
  split; [subst st; unfold initializeLevel;
          destruct (Level.presetBoxes lvl); reflexivity |].
  split; [exact Hbids |].
  split; [subst st; unfold initializeLevel;
          destruct (Level.presetBoxes lvl); state_simpl;
          repeat constructor |].
  split; [exact Hphase |].
  split; [subst st; unfold initializeLevel;
          destruct (Level.presetBoxes lvl); reflexivity |].
  unfold completionEffect. rewrite Hphase.
  unfold checkPackingComplete, packingComplete. rewrite Hzero.
  destruct (Nat.eqb_spec 0 (Level.chocolates lvl)) as [Heq | _];
    [lia | reflexivity].
Qed.

Lemma initializeLevel_boxes_witness :
  length (boxes (Play.fresh 1)) = 2 /\ length (boxes (Play.fresh 3)) = 0.
Proof.
  split.
  - destruct (initializeLevel_boxes (levelAt 1) initialGameState 17
                (newChocolates (levelAt 1)) initialState
                (Permutation_refl _)) as (Hlen & _).
    + vm_compute. lia.
    + exact Hlen.
  - destruct (initializeLevel_boxes (levelAt 3) initialGameState 17
                (newChocolates (levelAt 3)) initialState
                (Permutation_refl _)) as (Hlen & _).
    + vm_compute. lia.
    + exact Hlen.
Defined.

(** ** More on the distribution validator *)

Section Sizes.

Lemma forallb_permutation {A : Type} (f : A -> bool) (l l' : list A) :
  Permutation l l' -> forallb f l = forallb f l'.
Proof.
  induction 1 as [| x l l' _ IH | x y l | l l' l'' _ IH1 _ IH2]; cbn.
  - reflexivity.
  - rewrite IH. reflexivity.
  - destruct (f x), (f y); reflexivity.
  - rewrite IH1. exact IH2.
Qed.

Lemma isEvenlyDistributed_sizes (lvl : Level.t) (st : State) :
  isEvenlyDistributed lvl st
  = forallb (fun size => size =? Level.chocolates lvl / length (boxes st))
            (boxSizes (boxes st)).
Proof.
  unfold isEvenlyDistributed, chocolatesPerBox, boxSizes.
  generalize (Level.chocolates lvl / length (boxes st)). intros q.
  induction (boxes st) as [| b bs IH]; cbn; [reflexivity |].
  rewrite IH. reflexivity.
Qed.

Lemma totalInBoxes_equal_sizes (m : nat) (bs : list BoxItem.t) :
  Forall (fun size => size = m) (boxSizes bs) ->
  totalInBoxes bs = length bs * m.
Proof.
  intros Hall. apply totalInBoxes_uniform.
  apply forallb_forall. intros box Hin. apply Nat.eqb_eq.
  unfold boxSizes in Hall. rewrite Forall_forall in Hall.
  apply Hall. apply in_map_iff. exists box. split; [reflexivity | exact Hin].
Qed.

End Sizes.

(** X4.  Once every item of the level sits in one of the (at least one)
    boxes, the validator accepts exactly the arrangements in which all boxes
    have the same size; the common size is then [itemCount / boxCount] and
    the box count divides the item count.  In particular a single box
    holding everything is always accepted. *)
Theorem evenly_iff_equal_sizes (lvl : Level.t) (st : State) :
  boxes st <> [] ->
  totalInBoxes (boxes st) = Level.chocolates lvl ->
  (isEvenlyDistributed lvl st = true
   <-> exists m, Forall (fun size => size = m) (boxSizes (boxes st)))
  /\ (isEvenlyDistributed lvl st = true ->
      Level.chocolates lvl mod length (boxes st) = 0)
  /\ (length (boxes st) = 1 -> isEvenlyDistributed lvl st = true).
Proof.
  intros Hne Hall.
  assert (Hk : 0 < length (boxes st))
    by (destruct (boxes st); [congruence | cbn; lia]).
  assert (Hiff : isEvenlyDistributed lvl st = true
                 <-> exists m, Forall (fun size => size = m)
                                      (boxSizes (boxes st))).
  { rewrite isEvenlyDistributed_sizes, forallb_forall. split.
    - intros Hvalid. exists (Level.chocolates lvl / length (boxes st)).
      apply Forall_forall. intros size Hin. apply Nat.eqb_eq.
      exact (Hvalid size Hin).
    - intros [m Hm] size Hin. apply Nat.eqb_eq.
      pose proof (totalInBoxes_equal_sizes m (boxes st) Hm) as Htotal.
      rewrite Forall_forall in Hm. rewrite (Hm size Hin).
      rewrite <- Hall, Htotal, Nat.mul_comm.
      symmetry. apply Nat.div_mul. lia. }
  split; [exact Hiff |]. split.
  - intros Hvalid.
    destruct (Nat.eq_dec (Level.chocolates lvl mod length (boxes st)) 0)
      as [Hzero | Hrem]; [exact Hzero |].
    rewrite (uneven_never_valid lvl st Hall Hrem) in Hvalid.
    discriminate Hvalid.
  - intros Hone. apply Hiff.
    destruct (boxes st) as [| b [| b' bs]]; cbn in Hone; try discriminate.
    exists (length (BoxItem.chocolates b)). repeat constructor.
Qed.

Lemma evenly_iff_equal_sizes_witness :
  isEvenlyDistributed (levelAt 1) Play.level1_3_3 = true
  /\ Level.chocolates (levelAt 1) mod length (boxes Play.level1_3_3) = 0.
Proof.
  destruct (evenly_iff_equal_sizes (levelAt 1) Play.level1_3_3)
    as (Hiff & Hdiv & _).
  - vm_compute. discriminate.
  - vm_compute. reflexivity.
  - assert (Hvalid : isEvenlyDistributed (levelAt 1) Play.level1_3_3 = true).
    { apply Hiff. exists 3. vm_compute. repeat constructor. }
    split; [exact Hvalid | exact (Hdiv Hvalid)].
Defined.

(** X5.  Whether a distribution is valid depends only on how many items each
    box holds: moving items between boxes so that the sizes stay the same,
    or listing the boxes in another order, never changes the verdict. *)
Theorem validity_depends_on_sizes (lvl : Level.t) (st st' : State) :
  Permutation (boxSizes (boxes st)) (boxSizes (boxes st')) ->
  isEvenlyDistributed lvl st = isEvenlyDistributed lvl st'.
Proof.
  intros Hperm.
  rewrite !isEvenlyDistributed_sizes.
  assert (Hlen : length (boxes st) = length (boxes st')).
  { pose proof (Permutation_length Hperm) as Hlen.
    unfold boxSizes in Hlen. rewrite !length_map in Hlen. exact Hlen. }
  rewrite Hlen. apply forallb_permutation. exact Hperm.
Qed.

Lemma validity_depends_on_sizes_witness :
  let swapped := setBoxes (rev (boxes Play.level2_3_3_2)) Play.level2_3_3_2 in
  isEvenlyDistributed (levelAt 2) Play.level2_3_3_2
  = isEvenlyDistributed (levelAt 2) swapped.
Proof.
  intros swapped.
  apply (validity_depends_on_sizes (levelAt 2) Play.level2_3_3_2 swapped).
  unfold swapped, boxSizes. state_simpl. rewrite map_rev.
  apply Permutation_rev.
Defined.

(** ** More on the drop handlers *)

Section Frames.

Lemma Forall2_map_self {A : Type} (R : A -> A -> Prop) (f : A -> A)
    (l : list A) :
  (forall x, R x (f x)) -> Forall2 R l (map f l).
Proof.
  intros Hf. induction l as [| x l IH]; cbn; constructor; auto.
Qed.

Lemma Forall2_same {A : Type} (R : A -> A -> Prop) (l : list A) :
  (forall x, R x x) -> Forall2 R l l.
Proof.
  intros Hr. induction l as [| x l IH]; constructor; auto.
Qed.

Lemma markPlaced_already (cid : string) (cs : list ChocolateItem.t) :
  (forall x, In x cs -> ChocolateItem.id x = cid ->
             ChocolateItem.placed x = true) ->
  map (markPlaced cid) cs = cs.
Proof.
  induction cs as [| c cs IH]; cbn; intros Hall; [reflexivity |].
  rewrite IH by (intros x Hx; apply Hall; right; exact Hx).
  unfold markPlaced.
  destruct (String.eqb_spec (ChocolateItem.id c) cid) as [Heq | _];
    [| reflexivity].
  pose proof (Hall c (or_introl eq_refl) Heq) as Hplaced.
  destruct c as [i ty p]. cbn in *. rewrite Hplaced. reflexivity.
Qed.

Lemma setBoxes_same (st : State) : setBoxes (boxes st) st = st.
Proof. destruct st; reflexivity. Qed.

Lemma paint_twice (boxId : string) (c1 c2 : Color.t) (bs : list BoxItem.t) :
  map (paint boxId c2) (map (paint boxId c1) bs) = map (paint boxId c2) bs.
Proof.
  rewrite map_map. apply map_ext. intros box. unfold paint.
  destruct (BoxItem.id box =? boxId)%string eqn:Hid; cbn [BoxItem.id];
    rewrite Hid; reflexivity.
Qed.

Lemma paint_elsewhere (boxId : string) (color : Color.t)
    (bs : list BoxItem.t) :
  ~ In boxId (boxIds bs) -> map (paint boxId color) bs = bs.
Proof.
  induction bs as [| b bs IH]; cbn; intros Hnot; [reflexivity |].
  rewrite IH by tauto. unfold paint.
  destruct (String.eqb_spec (BoxItem.id b) boxId) as [Heq | _];
    [tauto | reflexivity].
Qed.

End Frames.

(** X6.  Whatever it is called with, [handleDropChocolate] only ever adds:
    the boxes stay the same in number, order, id and colour, and each keeps
    its contents or gains the dropped item at the end; the items stay the
    same in number, order, id and type, and no placed item becomes unplaced.
    Phase, message and colour selection are not touched. *)
Theorem handleDropChocolate_only_adds (boxId : string)
    (chocolate : ChocolateItem.t) (st : State) :
  let st' := fst (handleDropChocolate boxId chocolate st) in
  Forall2 (fun old new =>
             BoxItem.id new = BoxItem.id old
             /\ BoxItem.color new = BoxItem.color old
             /\ (BoxItem.chocolates new = BoxItem.chocolates old
                 \/ BoxItem.chocolates new
                    = BoxItem.chocolates old ++ [chocolate]))
          (boxes st) (boxes st')
  /\ Forall2 (fun old new =>
                ChocolateItem.id new = ChocolateItem.id old
                /\ ChocolateItem.type new = ChocolateItem.type old
                /\ (ChocolateItem.placed old = true ->
                    ChocolateItem.placed new = true))
             (chocolates st) (chocolates st')
  /\ gamePhase st' = gamePhase st
  /\ message st' = message st
  /\ selectedColor st' = selectedColor st.
Proof.
  intros st'. subst st'. unfold handleDropChocolate.
  destruct (ChocolateItem.placed chocolate); state_simpl.
  - split; [apply Forall2_same; intros; tauto |].
    split; [apply Forall2_same; intros; tauto |]. repeat split.
  - split.
    { apply Forall2_map_self. intros box. unfold appendTo.
      destruct (BoxItem.id box =? boxId)%string; cbn; tauto. }
    split; [| repeat split].
    apply Forall2_map_self. intros c. unfold markPlaced.
    destruct (ChocolateItem.id c =? ChocolateItem.id chocolate)%string; cbn;
      tauto.
Qed.

(** X7.  The guard of [handleDropChocolate] reads the [placed] flag of the
    dragged copy, not of the pool.  When the copy says unplaced while every
    pool item with that id is already placed, a drop on an existing box
    leaves the pool as it is and still puts one more item into the box. *)
Theorem stale_copy_is_boxed_again (boxId : string)
    (chocolate : ChocolateItem.t) (st : State) :
  ChocolateItem.placed chocolate = false ->
  (forall x, In x (chocolates st) ->
             ChocolateItem.id x = ChocolateItem.id chocolate ->
             ChocolateItem.placed x = true) ->
  NoDup (boxIds (boxes st)) ->
  In boxId (boxIds (boxes st)) ->
  let st' := fst (handleDropChocolate boxId chocolate st) in
  chocolates st' = chocolates st
  /\ placedChocolates st' = placedChocolates st
  /\ totalInBoxes (boxes st') = S (totalInBoxes (boxes st)).
Proof.
  intros Hcopy Hpool Hnodup Hbox st'. subst st'.
  unfold handleDropChocolate, placedChocolates. rewrite Hcopy. state_simpl.
  rewrite (markPlaced_already _ _ Hpool).
  split; [reflexivity |]. split; [reflexivity |].
  apply appendTo_counts_one; assumption.
Qed.

Lemma stale_copy_is_boxed_again_witness :
  let copy := ChocolateItem.mk "chocolate-0" cocoa false in
  let st' := fst (handleDropChocolate "box-18-0.25" copy Play.level2_3_3_2) in
  placedChocolates st' = 8 /\ totalInBoxes (boxes st') = 9.
Proof.
  intros copy st'.
  destruct (stale_copy_is_boxed_again "box-18-0.25" copy Play.level2_3_3_2)
    as (_ & Hplaced & Htotal).
  - reflexivity.
  - vm_compute. intros x Hin Hid.
    repeat (destruct Hin as [<- | Hin]; [reflexivity |]). destruct Hin.
  - vm_compute. repeat constructor; cbn; intuition discriminate.
  - vm_compute. tauto.
  - fold st' in Hplaced, Htotal. split.
    + rewrite Hplaced. vm_compute. reflexivity.
    + rewrite Htotal. vm_compute. reflexivity.
Defined.

(** X8.  Colouring a box overwrites: colouring twice gives what the second
    colour alone gives (in particular the same colour twice is the same as
    once).  It never changes what the boxes hold, their ids, or the items;
    and on an id that names no box it changes nothing at all. *)
Theorem handleDropColor_overwrites (boxId : string) (c1 c2 : Color.t)
    (st : State) :
  fst (handleDropColor boxId c2 (fst (handleDropColor boxId c1 st)))
  = fst (handleDropColor boxId c2 st)
  /\ map BoxItem.chocolates (boxes (fst (handleDropColor boxId c1 st)))
     = map BoxItem.chocolates (boxes st)
  /\ boxIds (boxes (fst (handleDropColor boxId c1 st))) = boxIds (boxes st)
  /\ chocolates (fst (handleDropColor boxId c1 st)) = chocolates st
  /\ (~ In boxId (boxIds (boxes st)) ->
      fst (handleDropColor boxId c1 st) = st).
Proof.
  unfold handleDropColor. state_simpl.
  split; [unfold setBoxes; state_simpl; rewrite paint_twice; reflexivity |].
  split.
  { rewrite map_map. apply map_ext. intros box. unfold paint.
    destruct (BoxItem.id box =? boxId)%string; reflexivity. }
  split; [apply (paint_keeps boxId c1 (boxes st)) |].
  split; [reflexivity |].
  intros Hunknown. rewrite paint_elsewhere by exact Hunknown.
  apply setBoxes_same.
Qed.

Lemma handleDropColor_overwrites_witness :
  let brown := Color.mk "#8B4513" "شکلاتی" "🍫" in
  fst (handleDropColor "box-0" brown (Play.fresh 2)) = Play.fresh 2.
Proof.
  intros brown.
  destruct (handleDropColor_overwrites "box-0" brown brown (Play.fresh 2))
    as (_ & _ & _ & _ & Hunknown).
  apply Hunknown. vm_compute. tauto.
Defined.

(** ** Starting over within a level *)

Section StartingOver.

Variables (lvl : Level.t) (gameState : GameState.t).

Lemma unplace_markPlaced (cid : string) (cs : list ChocolateItem.t) :
  map unplace (map (markPlaced cid) cs) = map unplace cs.
Proof.
  rewrite map_map. apply map_ext. intros c. unfold markPlaced.
  destruct (ChocolateItem.id c =? cid)%string; reflexivity.
Qed.

Lemma unplace_twice (cs : list ChocolateItem.t) :
  map unplace (map unplace cs) = map unplace cs.
Proof. rewrite map_map. reflexivity. Qed.

Lemma unplace_unplaced (cs : list ChocolateItem.t) :
  Forall (fun c => ChocolateItem.placed c = false) cs -> map unplace cs = cs.
Proof.
  induction 1 as [| c rest Hc _ IH]; cbn; [reflexivity |].
  rewrite IH. destruct c as [i ty p]. cbn in Hc. subst p. reflexivity.
Qed.

(** No event changes the pool beyond the [placed] flags. *)
Lemma handleEvent_pool (ev : Event) (st : State) :
  map unplace (chocolates (fst (handleEvent lvl gameState ev st)))
  = map unplace (chocolates st).
Proof.
  destruct ev as [boxId chocolate | boxId colorName | boxId | color
                 | now rnd | |]; cbn [handleEvent].
  - destruct (boxPhase st); try reflexivity.
    unfold handleDropChocolate.
    destruct (ChocolateItem.placed chocolate); [reflexivity |].
    state_simpl. apply unplace_markPlaced.
  - destruct (boxPhase st); try reflexivity.
    destruct (find _ COLORS); reflexivity.
  - destruct (boxPhase st), (selectedColor st); reflexivity.
  - destruct (gamePhase st); reflexivity.
  - unfold clickAddBox. destruct (Level.presetBoxes lvl); reflexivity.
  - destruct (gamePhase st); try reflexivity.
    unfold clearBoxes. destruct (Level.presetBoxes lvl); [reflexivity |].
    state_simpl. apply unplace_twice.
  - unfold completionEffect. destruct (gamePhase st); try reflexivity.
    + unfold checkPackingComplete.
      destruct (packingComplete lvl st); [| reflexivity].
      destruct (isEvenlyDistributed lvl st); [reflexivity |].
      destruct (Level.presetBoxes lvl); [reflexivity |].
      state_simpl. apply unplace_twice.
    + unfold checkColoringComplete.
      destruct (coloringComplete st); reflexivity.
Qed.

Lemma run_pool (evs : list Event) (st : State) :
  map unplace (chocolates (fst (run lvl gameState evs st)))
  = map unplace (chocolates st).
Proof.
  revert st. induction evs as [| ev rest IH]; intros st; [reflexivity |].
  cbn [run]. pose proof (handleEvent_pool ev st) as Hstep.
  destruct (handleEvent lvl gameState ev st) as [st1 es1]. cbn [fst] in Hstep.
  specialize (IH st1).
  destruct (run lvl gameState rest st1) as [st2 es2]. cbn [fst] in *.
  rewrite IH. exact Hstep.
Qed.

Lemma handleEvent_showNPC (ev : Event) (st : State) :
  showNPC (fst (handleEvent lvl gameState ev st)) = showNPC st.
Proof.
  destruct ev as [boxId chocolate | boxId colorName | boxId | color
                 | now rnd | |]; cbn [handleEvent].
  - destruct (boxPhase st); try reflexivity.
    unfold handleDropChocolate.
    destruct (ChocolateItem.placed chocolate); reflexivity.
  - destruct (boxPhase st); try reflexivity.
    destruct (find _ COLORS); reflexivity.
  - destruct (boxPhase st), (selectedColor st); reflexivity.
  - destruct (gamePhase st); reflexivity.
  - unfold clickAddBox. destruct (Level.presetBoxes lvl); reflexivity.
  - destruct (gamePhase st); try reflexivity.
    unfold clearBoxes. destruct (Level.presetBoxes lvl); reflexivity.
  - unfold completionEffect. destruct (gamePhase st); try reflexivity.
    + unfold checkPackingComplete.
      destruct (packingComplete lvl st); [| reflexivity].
      destruct (isEvenlyDistributed lvl st); [reflexivity |].
      destruct (Level.presetBoxes lvl); reflexivity.
    + unfold checkColoringComplete.
      destruct (coloringComplete st); reflexivity.
Qed.

Lemma run_showNPC (evs : list Event) (st : State) :
  showNPC (fst (run lvl gameState evs st)) = showNPC st.
Proof.
  revert st. induction evs as [| ev rest IH]; intros st; [reflexivity |].
  cbn [run]. pose proof (handleEvent_showNPC ev st) as Hstep.
  destruct (handleEvent lvl gameState ev st) as [st1 es1]. cbn [fst] in Hstep.
  specialize (IH st1).
  destruct (run lvl gameState rest st1) as [st2 es2]. cbn [fst] in *.
  rewrite IH. exact Hstep.
Qed.

Lemma fresh_pool_unplaced (now : nat) (shuffled : list ChocolateItem.t)
    (st0 : State) :
  Permutation shuffled (newChocolates lvl) ->
  chocolates (initializeLevel lvl now shuffled st0) = shuffled
  /\ map unplace shuffled = shuffled.
Proof.
  intros Hperm. split.
  - unfold initializeLevel. destruct (Level.presetBoxes lvl); reflexivity.
  - apply unplace_unplaced.
    eapply Permutation_Forall; [apply Permutation_sym, Hperm |].
    apply (proj2 (forEachType_shape CHOCOLATE_TYPES
                    (Level.chocolates lvl) 0 0)).
Qed.

End StartingOver.

(** X9.  On a level without preset boxes, [clearBoxes] after any sequence of
    events whatsoever brings back the freshly initialised level: the same
    items in the same shuffled order, all unplaced, no box, packing phase,
    no colour selected; only the message is left as it was.  On a level with
    preset boxes [clearBoxes] does nothing. *)
Theorem clearBoxes_restores_fresh (lvl : Level.t) (gameState : GameState.t)
    (now : nat) (shuffled : list ChocolateItem.t) (st0 : State)
    (evs : list Event) :
  Permutation shuffled (newChocolates lvl) ->
  let fresh := initializeLevel lvl now shuffled st0 in
  let st := fst (run lvl gameState evs fresh) in
  (Level.presetBoxes lvl = false ->
   fst (clearBoxes lvl st)
   = setMessage (message st) (setSelectedColor None fresh)
   /\ snd (clearBoxes lvl st) = [playClickSound])
  /\ (Level.presetBoxes lvl = true -> clearBoxes lvl st = (st, [])).
Proof.
  intros Hperm fresh st.
  split; intros Hpreset; unfold clearBoxes; rewrite Hpreset;
    [| reflexivity].
  split; [| reflexivity].
  destruct (fresh_pool_unplaced lvl now shuffled st0 Hperm) as [Hchoc Hsame].
  pose proof (run_pool lvl gameState evs fresh) as Hpool.
  fold st in Hpool. fold fresh in Hchoc, Hpool.
  rewrite Hchoc, Hsame in Hpool.
  pose proof (run_showNPC lvl gameState evs fresh) as Hshow.
  fold st in Hshow.
  state_simpl. unfold setMessage, setSelectedColor, setGamePhase,
    setChocolates, setBoxes. state_simpl.
  rewrite Hpool, Hshow.
  subst fresh. unfold initializeLevel. rewrite Hpreset. reflexivity.
Qed.

Lemma clearBoxes_restores_fresh_witness :
  chocolates (fst (clearBoxes (levelAt 2) Play.level2_3_3_2))
  = chocolates (Play.fresh 2)
  /\ boxes (fst (clearBoxes (levelAt 2) Play.level2_3_3_2)) = [].
Proof.
  pose proof (clearBoxes_restores_fresh (levelAt 2) (GameState.mk 2 0 true 0)
                17 (newChocolates (levelAt 2)) initialState
                ([ClickAddBox 18 "0.25"; ClickAddBox 19 "0.5";
                  ClickAddBox 20 "0.75"]
                 ++ Play.dropsInto "box-18-0.25"
                      (firstn 3 (newChocolates (levelAt 2)))
                 ++ Play.dropsInto "box-19-0.5"
                      (firstn 3 (skipn 3 (newChocolates (levelAt 2))))
                 ++ Play.dropsInto "box-20-0.75"
                      (skipn 6 (newChocolates (levelAt 2))))
                (Permutation_refl _)) as [Hfree _].
  destruct (Hfree eq_refl) as [Hstate _].
  split.
  - exact (f_equal chocolates Hstate).
  - exact (f_equal boxes Hstate).
Defined.

(** X10.  The retry after an invalid distribution (levels without preset
    boxes, at least one item) gives the player the fresh pool back in its
    shuffled order, keeps the boxes that were there (same number, same ids,
    now empty and uncoloured), and leaves a state on which the completion
    effect does not fire again. *)
Theorem retry_restores_pool (lvl : Level.t) (gameState : GameState.t)
    (now : nat) (shuffled : list ChocolateItem.t) (st0 : State)
    (evs : list Event) :
  Permutation shuffled (newChocolates lvl) ->
  Level.presetBoxes lvl = false ->
  0 < Level.chocolates lvl ->
  let fresh := initializeLevel lvl now shuffled st0 in
  let st := fst (run lvl gameState evs fresh) in
  packingComplete lvl st = true ->
  isEvenlyDistributed lvl st = false ->
  let again := fst (checkPackingComplete lvl st) in
  chocolates again = chocolates fresh
  /\ boxes again = map emptied (boxes st)
  /\ length (boxes again) = length (boxes st)
  /\ boxIds (boxes again) = boxIds (boxes st)
  /\ completionEffect lvl gameState again = (again, []).
Proof.
  intros Hperm Hfree Hpos fresh st Hcomplete Hinvalid again.
  destruct (fresh_pool_unplaced lvl now shuffled st0 Hperm) as [Hchoc Hsame].
  pose proof (run_pool lvl gameState evs fresh) as Hpool.
  fold st in Hpool. fold fresh in Hchoc, Hpool.
  rewrite Hchoc, Hsame in Hpool.
  assert (Hagain : again
    = setGamePhase packing
        (setSelectedColor None
           (setChocolates (map unplace (chocolates st))
              (setBoxes (map emptied (boxes st))
                 (setMessage msgWrongSplit st))))).
  { subst again. unfold checkPackingComplete.
    rewrite Hcomplete, Hinvalid, Hfree. reflexivity. }
  rewrite Hagain. state_simpl.
  split; [rewrite Hpool, Hchoc; reflexivity |].
  split; [reflexivity |].
  split; [apply length_map |].
  split; [apply (proj2 (emptied_all (boxes st))) |].
  unfold completionEffect. state_simpl.
  unfold checkPackingComplete, packingComplete, placedChocolates. state_simpl.
  rewrite unplace_placed.
  destruct (Nat.eqb_spec 0 (Level.chocolates lvl)) as [Heq | _];
    [lia | reflexivity].
Qed.

Lemma retry_restores_pool_witness :
  chocolates (fst (checkPackingComplete (levelAt 2) Play.level2_3_3_2))
  = chocolates (Play.fresh 2).
Proof.
  destruct (retry_restores_pool (levelAt 2) (GameState.mk 2 0 true 0)
              17 (newChocolates (levelAt 2)) initialState
              ([ClickAddBox 18 "0.25"; ClickAddBox 19 "0.5";
                ClickAddBox 20 "0.75"]
               ++ Play.dropsInto "box-18-0.25"
                    (firstn 3 (newChocolates (levelAt 2)))
               ++ Play.dropsInto "box-19-0.5"
                    (firstn 3 (skipn 3 (newChocolates (levelAt 2))))
               ++ Play.dropsInto "box-20-0.75"
                    (skipn 6 (newChocolates (levelAt 2)))))
    as (Hpool & _).
  - apply Permutation_refl.
  - reflexivity.
  - vm_compute. lia.
  - vm_compute. reflexivity.
  - vm_compute. reflexivity.
  - exact Hpool.
Defined.

(** ** A wrong split on level 1 *)

Section DeadEnd.

Lemma all_placed (cs : list ChocolateItem.t) :
  length (filter ChocolateItem.placed cs) = length cs ->
  forall c, In c cs -> ChocolateItem.placed c = true.
Proof.
  induction cs as [| x xs IH]; cbn; intros Hlen c Hin; [destruct Hin |].
  pose proof (filter_length_le ChocolateItem.placed xs) as Hle.
  destruct (ChocolateItem.placed x) eqn:Hx; cbn in Hlen; [| lia].
  destruct Hin as [<- | Hin]; [exact Hx |].
  apply IH; [lia | exact Hin].
Qed.

Lemma level1_stuck_step (gameState : GameState.t) (ev : Event) (st : State) :
  length (chocolates st) = Level.chocolates (levelAt 1) ->
  gamePhase st = packing ->
  packingComplete (levelAt 1) st = true ->
  isEvenlyDistributed (levelAt 1) st = false ->
  offered st ev ->
  handleEvent (levelAt 1) gameState ev st = (st, []).
Proof.
  intros Hpool Hphase Hcomplete Hinvalid Hoffered.
  assert (Hcheck : checkPackingComplete (levelAt 1) st = (st, [])).
  { unfold checkPackingComplete. rewrite Hcomplete, Hinvalid. reflexivity. }
  destruct ev as [boxId chocolate | boxId colorName | boxId | color
                 | now rnd | |]; cbn [handleEvent];
    unfold boxPhase; rewrite ?Hphase.
  - exfalso. destruct Hoffered as (Hin & Hfree & _).
    apply packingComplete_iff in Hcomplete. destruct Hcomplete as [Hall _].
    unfold placedChocolates in Hall. rewrite <- Hpool in Hall.
    rewrite (all_placed _ Hall chocolate Hin) in Hfree. discriminate Hfree.
  - reflexivity.
  - destruct (selectedColor st); reflexivity.
  - reflexivity.
  - reflexivity.
  - reflexivity.
  - unfold completionEffect. rewrite Hphase. exact Hcheck.
Qed.

End DeadEnd.

(** X11.  On level 1 a complete but uneven packing is a dead end.  With the
    six items of the pool all placed and the two preset boxes filled
    unevenly, every sequence of events the page can deliver (drops of
    unplaced pool items, colourings, the add-box and clear-boxes buttons,
    the completion effect) leaves the whole state as it is and issues no
    effect: nothing is reset, the phase stays packing and no points are
    awarded. *)
Theorem level1_uneven_is_stuck (gameState : GameState.t) (evs : list Event)
    (st : State) :
  length (chocolates st) = Level.chocolates (levelAt 1) ->
  gamePhase st = packing ->
  packingComplete (levelAt 1) st = true ->
  isEvenlyDistributed (levelAt 1) st = false ->
  offeredAll (levelAt 1) gameState evs st ->
  run (levelAt 1) gameState evs st = (st, []).
Proof.
  intros Hpool Hphase Hcomplete Hinvalid.
  induction evs as [| ev rest IH]; intros Hall; [reflexivity |].
  destruct Hall as [Hoffered Hrest]. cbn [run].
  rewrite (level1_stuck_step gameState ev st Hpool Hphase Hcomplete Hinvalid
             Hoffered) in *.
  cbn [fst] in Hrest. rewrite (IH Hrest). reflexivity.
Qed.

Lemma level1_uneven_is_stuck_witness :
  run (levelAt 1) (GameState.mk 1 0 true 0)
      [RunEffect; ClickClearBoxes; ClickAddBox 21 "0.9"; ClickBox "box-17-0";
       RunEffect]
      Play.level1_4_2
  = (Play.level1_4_2, []).
Proof.
  apply level1_uneven_is_stuck.
  - reflexivity.
  - reflexivity.
  - vm_compute. reflexivity.
  - vm_compute. reflexivity.
  - vm_compute. intuition discriminate.
Defined.

(** ** Phases and points within one level *)

Section Phases.

Variables (lvl : Level.t) (gameState : GameState.t).

(** One event either awards nothing, or it is the completion effect taking
    the colouring phase to [completed], awarding 10 points once and, only on
    level 4, asking for the run to be completed once. *)
Lemma handleEvent_award (ev : Event) (st : State) :
  let st1 := fst (handleEvent lvl gameState ev st) in
  let es1 := snd (handleEvent lvl gameState ev st) in
  phaseRank (gamePhase st) <= phaseRank (gamePhase st1)
  /\ (gamePhase st1 = pixi -> gamePhase st = pixi)
  /\ ((filter isAward es1 = [] /\ filter isCompleteRun es1 = [])
      \/ (gamePhase st = coloring
          /\ gamePhase st1 = completed
          /\ filter isAward es1 = [onAwardPoints 10]
          /\ (filter isCompleteRun es1 = []
              \/ filter isCompleteRun es1 = [onCompleteRun]
                 /\ GameState.currentLevel gameState = 4%Z))).
Proof.
  destruct ev as [boxId chocolate | boxId colorName | boxId | color
                 | now rnd | |]; cbn [handleEvent].
  - unfold boxPhase, handleDropChocolate.
    destruct (gamePhase st) eqn:Hphase, (ChocolateItem.placed chocolate);
      cbn; rewrite ?Hphase; cbn; repeat split; auto; congruence.
  - unfold boxPhase.
    destruct (gamePhase st) eqn:Hphase;
      [| destruct (find _ COLORS) | |];
      cbn; rewrite ?Hphase; cbn; repeat split; auto; congruence.
  - unfold boxPhase.
    destruct (gamePhase st) eqn:Hphase, (selectedColor st);
      cbn; rewrite ?Hphase; cbn; repeat split; auto; congruence.
  - destruct (gamePhase st) eqn:Hphase; cbn; rewrite ?Hphase; cbn;
      repeat split; auto; congruence.
  - unfold clickAddBox, addBox.
    destruct (Level.presetBoxes lvl); cbn; repeat split; auto.
  - unfold clearBoxes.
    destruct (gamePhase st) eqn:Hphase, (Level.presetBoxes lvl);
      cbn; rewrite ?Hphase; cbn; repeat split; auto; congruence.
  - unfold completionEffect, checkPackingComplete, checkColoringComplete.
    change (Z.of_nat (length LEVELS)) with 4%Z.
    destruct (gamePhase st) eqn:Hphase.
    + destruct (packingComplete lvl st), (isEvenlyDistributed lvl st),
        (Level.presetBoxes lvl); cbn; rewrite ?Hphase; cbn;
        repeat split; auto; try lia; congruence.
    + destruct (coloringComplete st).
      * destruct (Z.eqb_spec (GameState.currentLevel gameState) 4)
          as [Hlast | Hnot]; cbn; (split; [lia |]);
          (split; [congruence |]); right; repeat split; auto.
      * cbn. rewrite Hphase. cbn. repeat split; auto.
    + cbn. rewrite Hphase. cbn. repeat split; auto.
    + cbn. rewrite Hphase. cbn. repeat split; auto.
Qed.

Lemma run_phase (evs : list Event) (st : State) :
  phaseRank (gamePhase st)
  <= phaseRank (gamePhase (fst (run lvl gameState evs st)))
  /\ (gamePhase (fst (run lvl gameState evs st)) = pixi ->
      gamePhase st = pixi).
Proof.
  revert st. induction evs as [| ev rest IH]; intros st.
  - split; [apply Nat.le_refl | tauto].
  - cbn [run].
    destruct (handleEvent_award ev st) as (Hrank & Hpixi & _).
    destruct (handleEvent lvl gameState ev st) as [st1 es1].
    cbn [fst] in Hrank, Hpixi. specialize (IH st1).
    destruct (run lvl gameState rest st1) as [st2 es2]. cbn [fst] in *.
    destruct IH as [IHrank IHpixi]. split; [lia | tauto].
Qed.

Lemma run_award (evs : list Event) (st : State) :
  let es := snd (run lvl gameState evs st) in
  length (filter isAward es)
  <= (if phaseRank (gamePhase st) <=? 1 then 1 else 0)
  /\ length (filter isCompleteRun es) <= length (filter isAward es)
  /\ Forall (fun e => e = onAwardPoints 10) (filter isAward es)
  /\ (filter isCompleteRun es <> [] ->
      GameState.currentLevel gameState = 4%Z).
Proof.
  revert st. induction evs as [| ev rest IH]; intros st.
  - cbn. destruct (phaseRank (gamePhase st) <=? 1);
      repeat split; try lia; try constructor; congruence.
  - cbn [run].
    destruct (handleEvent_award ev st) as (Hrank & _ & Hstep).
    destruct (handleEvent lvl gameState ev st) as [st1 es1].
    cbn [fst snd] in Hrank, Hstep. specialize (IH st1).
    destruct (run lvl gameState rest st1) as [st2 es2]. cbn [snd] in *.
    destruct IH as (IHone & IHle & IHten & IHlast).
    rewrite !filter_app, !length_app.
    destruct Hstep as [[Hno Hnone]
                      | (Hfrom & Hto & Hten & [Hnone | [Hrun Hlast]])].
    + rewrite Hno, Hnone. cbn [length app Nat.add].
      split; [| split; [exact IHle | split; [exact IHten | exact IHlast]]].
      destruct (Nat.leb_spec (phaseRank (gamePhase st1)) 1),
        (Nat.leb_spec (phaseRank (gamePhase st)) 1); lia.
    + rewrite Hten, Hnone, Hfrom. rewrite Hto in IHone.
      cbn [length app Nat.add phaseRank Nat.leb] in IHone |- *.
      split; [lia |]. split; [lia |].
      split; [constructor; [reflexivity | exact IHten] |].
      intros Hsome. apply IHlast.
      destruct (filter isCompleteRun es2) as [| e es]; [congruence |].
      cbn [length] in IHle. lia.
    + rewrite Hten, Hrun, Hfrom. rewrite Hto in IHone.
      cbn [length app Nat.add phaseRank Nat.leb] in IHone |- *.
      split; [lia |]. split; [lia |].
      split; [constructor; [reflexivity | exact IHten] |].
      intros _. exact Hlast.
Qed.

End Phases.

(** X12.  Within one level the phase only moves forward: along any sequence
    of events it never returns from colouring to packing nor from completed
    to an earlier phase, and the events never put the page into the [pixi]
    phase. *)
Theorem phase_never_goes_back (lvl : Level.t) (gameState : GameState.t)
    (evs : list Event) (st : State) :
  let st' := fst (run lvl gameState evs st) in
  phaseRank (gamePhase st) <= phaseRank (gamePhase st')
  /\ (gamePhase st = completed -> gamePhase st' = completed)
  /\ (gamePhase st' = packing -> gamePhase st = packing)
  /\ (gamePhase st' = pixi -> gamePhase st = pixi).
Proof.
  intros st'. subst st'.
  destruct (run_phase lvl gameState evs st) as [Hrank Hpixi].
  split; [exact Hrank |].
  destruct (gamePhase st) eqn:Hfrom,
    (gamePhase (fst (run lvl gameState evs st))) eqn:Hto;
    cbn in Hrank; repeat split; intros; try congruence; try lia;
    try (specialize (Hpixi eq_refl); congruence).
Qed.

(** X13.  Whatever the player does within one level, points are awarded at
    most once, always 10 at a time, and never once the level is completed;
    the run is folded into the total at most once, only together with an
    award, and only on level 4. *)
Theorem points_awarded_at_most_once (lvl : Level.t) (gameState : GameState.t)
    (evs : list Event) (st : State) :
  let es := snd (run lvl gameState evs st) in
  length (filter isAward es) <= 1
  /\ (gamePhase st = completed -> filter isAward es = [])
  /\ Forall (fun e => e = onAwardPoints 10) (filter isAward es)
  /\ length (filter isCompleteRun es) <= length (filter isAward es)
  /\ (filter isCompleteRun es <> [] ->
      GameState.currentLevel gameState = 4%Z).
Proof.
  intros es. subst es.
  destruct (run_award lvl gameState evs st) as (Hone & Hle & Hten & Hlast).
  split; [destruct (phaseRank (gamePhase st) <=? 1); lia |].
  split.
  { intros Hdone. rewrite Hdone in Hone. cbn in Hone.
    destruct (filter isAward (snd (run lvl gameState evs st)));
      [reflexivity | cbn in Hone; lia]. }
  split; [exact Hten |]. split; [exact Hle | exact Hlast].
Qed.

Lemma points_awarded_at_most_once_witness :
  filter isAward
    (snd (run (levelAt 4) (GameState.mk 4 30 true 0)
              [RunEffect; ClickBox "box-18-0.25"; RunEffect]
              (setGamePhase completed Play.level4_coloured)))
  = [].
Proof.
  destruct (points_awarded_at_most_once (levelAt 4) (GameState.mk 4 30 true 0)
              [RunEffect; ClickBox "box-18-0.25"; RunEffect]
              (setGamePhase completed Play.level4_coloured))
    as (_ & Hdone & _).
  apply Hdone. reflexivity.
Defined.

Section Settling.

Variables (lvl : Level.t) (gameState : GameState.t).

Lemma completionEffect_done (s : State) :
  gamePhase s = completed \/ gamePhase s = pixi ->
  completionEffect lvl gameState s = (s, []).
Proof.
  unfold completionEffect. intros [-> | ->]; reflexivity.
Qed.

Lemma completionEffect_coloring (s : State) :
  gamePhase s = coloring ->
  completionEffect lvl gameState s = (s, [])
  \/ gamePhase (fst (completionEffect lvl gameState s)) = completed.
Proof.
  intros Hphase. unfold completionEffect. rewrite Hphase.
  unfold checkColoringComplete.
  destruct (coloringComplete s); [right | left]; reflexivity.
Qed.

Lemma completionEffect_nothing_placed (s : State) :
  0 < Level.chocolates lvl ->
  gamePhase s = packing ->
  placedChocolates s = 0 ->
  completionEffect lvl gameState s = (s, []).
Proof.
  intros Hpos Hphase Hzero. unfold completionEffect. rewrite Hphase.
  unfold checkPackingComplete, packingComplete. rewrite Hzero.
  destruct (Nat.eqb_spec 0 (Level.chocolates lvl)); [lia | reflexivity].
Qed.

Lemma completionEffect_packing (s : State) :
  gamePhase s = packing ->
  completionEffect lvl gameState s = (s, [])
  \/ gamePhase (fst (completionEffect lvl gameState s)) = coloring
  \/ (gamePhase (fst (completionEffect lvl gameState s)) = packing
      /\ placedChocolates (fst (completionEffect lvl gameState s)) = 0).
Proof.
  intros Hphase. unfold completionEffect. rewrite Hphase.
  unfold checkPackingComplete.
  destruct (packingComplete lvl s); [| left; reflexivity].
  destruct (isEvenlyDistributed lvl s); [right; left; reflexivity |].
  destruct (Level.presetBoxes lvl); [left; reflexivity |].
  right. right. state_simpl. split; [reflexivity |].
  unfold placedChocolates. state_simpl. apply unplace_placed.
Qed.

End Settling.

(** X14.  The completion effect cannot loop.  On a level with at least one
    item, after the effect has run twice a further run changes nothing and
    issues no effect: a packing check that fired has either moved on to
    colouring or reset the level to a state that is not complete, and a
    colouring check that fired has moved on to [completed]. *)
Theorem completionEffect_settles (lvl : Level.t) (gameState : GameState.t)
    (st : State) :
  0 < Level.chocolates lvl ->
  let once := fst (completionEffect lvl gameState st) in
  let twice := fst (completionEffect lvl gameState once) in
  completionEffect lvl gameState twice = (twice, []).
Proof.
  intros Hpos once twice.
  assert (Hrest : completionEffect lvl gameState once = (once, []) ->
                  completionEffect lvl gameState twice = (twice, [])).
  { intros Hstable. subst twice. rewrite Hstable. exact Hstable. }
  assert (Hcoloring : gamePhase once = coloring ->
                      completionEffect lvl gameState twice = (twice, [])).
  { intros Hphase.
    destruct (completionEffect_coloring lvl gameState once Hphase)
      as [Hstable | Hdone]; [exact (Hrest Hstable) |].
    apply completionEffect_done. left. exact Hdone. }
  destruct (gamePhase st) eqn:Hphase.
  - destruct (completionEffect_packing lvl gameState st Hphase)
      as [Hstable | [Hnext | [Hagain Hzero]]].
    + apply Hrest. subst once. rewrite Hstable. exact Hstable.
    + exact (Hcoloring Hnext).
    + apply Hrest.
      apply completionEffect_nothing_placed; assumption.
  - destruct (completionEffect_coloring lvl gameState st Hphase)
      as [Hstable | Hdone].
    + apply Hrest. subst once. rewrite Hstable. exact Hstable.
    + apply Hrest. apply completionEffect_done. left. exact Hdone.
  - assert (Hstable : completionEffect lvl gameState st = (st, []))
      by (apply completionEffect_done; left; exact Hphase).
    apply Hrest. subst once. rewrite Hstable. exact Hstable.
  - assert (Hstable : completionEffect lvl gameState st = (st, []))
      by (apply completionEffect_done; right; exact Hphase).
    apply Hrest. subst once. rewrite Hstable. exact Hstable.
Qed.

Lemma completionEffect_settles_witness :
  let gameState := GameState.mk 2 0 true 0 in
  let once := fst (completionEffect (levelAt 2) gameState Play.level2_3_3_2) in
  let twice := fst (completionEffect (levelAt 2) gameState once) in
  completionEffect (levelAt 2) gameState twice = (twice, []).
Proof.
  intros gameState once twice.
  apply (completionEffect_settles (levelAt 2) gameState Play.level2_3_3_2).
  vm_compute. lia.
Defined.

Lemma phase_never_goes_back_witness :
  gamePhase
    (fst (run (levelAt 4) (GameState.mk 4 30 true 0)
              [ClickClearBoxes; RunEffect; ClickAddBox 22 "0.1"]
              (setGamePhase completed Play.level4_coloured)))
  = completed.
Proof.
  destruct (phase_never_goes_back (levelAt 4) (GameState.mk 4 30 true 0)
              [ClickClearBoxes; RunEffect; ClickAddBox 22 "0.1"]
              (setGamePhase completed Play.level4_coloured))
    as (_ & Hdone & _).
  apply Hdone. reflexivity.
Defined.

(** ** Moving through the levels *)

Section Levels.

Open Scope Z_scope.

Lemma completeLevel_result (st : State) (gs : GameState.t) :
  coloringComplete st = true ->
  completeLevel st gs
  = GameState.mk (GameState.currentLevel gs) (GameState.score gs + 10)
      (GameState.isPlaying gs)
      (if GameState.currentLevel gs =? 4
       then GameState.totalScore gs + (GameState.score gs + 10)
       else GameState.totalScore gs).
Proof.
  intros Hdone. unfold completeLevel, checkColoringComplete. rewrite Hdone.
  change (Z.of_nat (length LEVELS)) with 4.
  destruct (GameState.currentLevel gs =? 4); reflexivity.
Qed.

Lemma advance_result (st : State) (gs : GameState.t) :
  gamePhase st = completed ->
  advance st gs
  = if GameState.currentLevel gs <? 4
    then GameState.mk (Z.min (GameState.currentLevel gs + 1) 4)
           (GameState.score gs) (GameState.isPlaying gs)
           (GameState.totalScore gs)
    else GameState.mk 1 0 true (GameState.totalScore gs).
Proof.
  intros Hphase. unfold advance, clickOverlay, handleNextLevel.
  rewrite Hphase. change (Z.of_nat (length LEVELS)) with 4.
  destruct (GameState.currentLevel gs <? 4); reflexivity.
Qed.

Lemma playLevel_result (st : State) (gs : GameState.t) :
  coloringComplete st = true ->
  playLevel st gs
  = if GameState.currentLevel gs <? 4
    then GameState.mk (Z.min (GameState.currentLevel gs + 1) 4)
           (GameState.score gs + 10) (GameState.isPlaying gs)
           (GameState.totalScore gs)
    else GameState.mk 1 0 true
           (if GameState.currentLevel gs =? 4
            then GameState.totalScore gs + (GameState.score gs + 10)
            else GameState.totalScore gs).
Proof.
  intros Hdone. unfold playLevel.
  rewrite advance_result
    by (unfold checkColoringComplete; rewrite Hdone; reflexivity).
  rewrite (completeLevel_result st gs Hdone).
  cbn [GameState.currentLevel GameState.score GameState.isPlaying
       GameState.totalScore].
  destruct (Z.ltb_spec (GameState.currentLevel gs) 4) as [Hlt | Hge];
    [| reflexivity].
  destruct (Z.eqb_spec (GameState.currentLevel gs) 4) as [Heq | _];
    [lia | reflexivity].
Qed.

End Levels.

(** X15.  [handleNextLevel] below level 4 leaves the page state alone and
    asks for the next level, which moves the run up by exactly one level
    with score and total untouched.  Called on level 4 or beyond it shows
    the champion message, changes nothing in the run at once, and schedules
    after 3000 ms the reset that puts the run back to level 1 with score 0,
    still playing, the lifetime total kept.  The overlay button reaches it
    only below level 4; on level 4 the button resets the run directly, and
    outside the completed phase there is no button. *)
Theorem handleNextLevel_advances (gs : GameState.t) (st : State) :
  ((GameState.currentLevel gs < 4)%Z ->
   handleNextLevel gs st = (st, [onNextLevel])
   /\ deliverAll (snd (handleNextLevel gs st)) gs
      = GameState.mk (GameState.currentLevel gs + 1) (GameState.score gs)
          (GameState.isPlaying gs) (GameState.totalScore gs))
  /\ ((4 <= GameState.currentLevel gs)%Z ->
      handleNextLevel gs st
      = (setMessage msgChampion st,
         [playCompleteSound; setTimeout callResetGame 3000])
      /\ deliverAll (snd (handleNextLevel gs st)) gs = gs
      /\ deliverWithTimers (snd (handleNextLevel gs st))
           (fst (handleNextLevel gs st)) gs
         = GameState.mk 1 0 true (GameState.totalScore gs))
  /\ (gamePhase st = completed ->
      clickOverlay gs st
      = if (GameState.currentLevel gs <? 4)%Z
        then (st, [onNextLevel]) else (st, [onResetGame]))
  /\ (gamePhase st <> completed -> clickOverlay gs st = (st, [])).
Proof.
  unfold clickOverlay, handleNextLevel.
  change (Z.of_nat (length LEVELS)) with 4%Z.
  split; [| split; [| split]].
  - intros Hlevel.
    destruct (Z.ltb_spec (GameState.currentLevel gs) 4) as [_ | Hge];
      [| lia].
    split; [reflexivity |].
    unfold deliverAll. cbn [snd fold_left deliver]. unfold nextLevel.
    f_equal. lia.
  - intros Hlevel.
    destruct (Z.ltb_spec (GameState.currentLevel gs) 4) as [Hlt | _];
      [lia |].
    repeat split.
  - intros ->. destruct (GameState.currentLevel gs <? 4)%Z; reflexivity.
  - intros Hphase. destruct (gamePhase st); try reflexivity. congruence.
Qed.

Lemma handleNextLevel_advances_witness :
  deliverAll (snd (handleNextLevel (GameState.mk 1 10 true 0)
                     Play.level1_3_3)) (GameState.mk 1 10 true 0)
  = GameState.mk 2 10 true 0
  /\ deliverWithTimers
       (snd (handleNextLevel (GameState.mk 4 40 true 40)
               Play.level4_coloured))
       (fst (handleNextLevel (GameState.mk 4 40 true 40)
               Play.level4_coloured))
       (GameState.mk 4 40 true 40)
     = GameState.mk 1 0 true 40.
Proof.
  split.
  - destruct (handleNextLevel_advances (GameState.mk 1 10 true 0)
                Play.level1_3_3) as [Hnext _].
    destruct Hnext as [_ Hrun]; [cbn; lia | exact Hrun].
  - destruct (handleNextLevel_advances (GameState.mk 4 40 true 40)
                Play.level4_coloured) as (_ & Hlast & _).
    destruct Hlast as (_ & _ & Hreset); [cbn; lia | exact Hreset].
Defined.

(** X16.  A full pass through the game adds exactly 40 to the lifetime
    total.  Starting a run on level 1 with score 0, playing levels 1 to 3 to
    the end (colouring completed, overlay button clicked) and completing the
    colouring of level 4 ends on level 4 with run score 40 and the total
    raised by 40; the overlay button of level 4 then returns the run to
    level 1 with score 0 and keeps that total. *)
Theorem full_run_adds_forty (gs : GameState.t) (s1 s2 s3 s4 : State) :
  GameState.currentLevel gs = 1%Z ->
  GameState.score gs = 0%Z ->
  coloringComplete s1 = true ->
  coloringComplete s2 = true ->
  coloringComplete s3 = true ->
  coloringComplete s4 = true ->
  completeLevel s4 (playLevel s3 (playLevel s2 (playLevel s1 gs)))
  = GameState.mk 4 40 (GameState.isPlaying gs)
      (GameState.totalScore gs + 40)
  /\ playLevel s4 (playLevel s3 (playLevel s2 (playLevel s1 gs)))
     = GameState.mk 1 0 true (GameState.totalScore gs + 40).
Proof.
  intros Hlevel Hscore H1 H2 H3 H4.
  destruct gs as [level score playing total]. cbn in Hlevel, Hscore.
  subst level score.
  rewrite (playLevel_result s1 _ H1).
  cbn [GameState.currentLevel GameState.score GameState.isPlaying
       GameState.totalScore Z.eqb Z.ltb Z.compare Pos.compare
       Pos.compare_cont Z.min Z.add Pos.add Pos.succ].
  rewrite (playLevel_result s2 _ H2).
  cbn [GameState.currentLevel GameState.score GameState.isPlaying
       GameState.totalScore Z.eqb Z.ltb Z.compare Pos.compare
       Pos.compare_cont Z.min Z.add Pos.add Pos.succ].
  rewrite (playLevel_result s3 _ H3).
  cbn [GameState.currentLevel GameState.score GameState.isPlaying
       GameState.totalScore Z.eqb Z.ltb Z.compare Pos.compare
       Pos.compare_cont Z.min Z.add Pos.add Pos.succ].
  rewrite (playLevel_result s4 _ H4), (completeLevel_result s4 _ H4).
  cbn [GameState.currentLevel GameState.score GameState.isPlaying
       GameState.totalScore Z.eqb Z.ltb Z.compare Pos.compare
       Pos.compare_cont Z.min Z.add Pos.add Pos.succ].
  split; f_equal; lia.
Qed.

Lemma full_run_adds_forty_witness :
  let s := Play.level4_coloured in
  playLevel s (playLevel s (playLevel s
    (playLevel s (GameState.mk 1 0 true 120))))
  = GameState.mk 1 0 true 160.
Proof.
  intros s.
  destruct (full_run_adds_forty (GameState.mk 1 0 true 120) s s s s)
    as [_ Hreset]; [reflexivity .. | exact Hreset].
Defined.

(** ** The run state under any use of the callbacks *)

Section RunState.

Open Scope Z_scope.

Lemma runOps_invariants (ops : list Op) (gs : GameState.t) :
  1 <= GameState.currentLevel gs <= 4 ->
  1 <= GameState.currentLevel (runOps ops gs) <= 4
  /\ GameState.isPlaying (runOps ops gs)
     = (GameState.isPlaying gs || existsb startsPlay ops)%bool.
Proof.
  revert gs. induction ops as [| op ops IH]; intros gs Hlevel.
  - cbn. rewrite orb_false_r. split; [exact Hlevel | reflexivity].
  - change (runOps (op :: ops) gs) with (runOps ops (applyOp op gs)).
    assert (Hstep : 1 <= GameState.currentLevel (applyOp op gs) <= 4)
      by (destruct op; cbn; lia).
    destruct (IH (applyOp op gs) Hstep) as [IHlevel IHplay].
    split; [exact IHlevel |].
    rewrite IHplay. cbn [existsb].
    destruct op; cbn;
      rewrite ?orb_true_r, ?orb_true_l, ?orb_false_l; reflexivity.
Qed.

End RunState.

(** X17.  Whatever callbacks are invoked, in whatever order and with
    whatever award, the current level of the run stays within 1 .. 4
    ([nextLevel] on level 4 changes nothing), and the game page is shown
    exactly from the first [startGame] or [resetGame] on: no callback ever
    brings the login page back. *)
Theorem run_state_stays_in_range (ops : list Op) :
  let gs := runOps ops initialGameState in
  (1 <= GameState.currentLevel gs <= 4)%Z
  /\ GameState.isPlaying gs = existsb startsPlay ops
  /\ render gs = (if existsb startsPlay ops then GamePage else LoginPage)
  /\ (GameState.currentLevel gs = 4%Z -> applyOp opNextLevel gs = gs).
Proof.
  intros gs.
  destruct (runOps_invariants ops initialGameState) as [Hlevel Hplay];
    [cbn; lia |].
  fold gs in Hlevel, Hplay. cbn [initialGameState GameState.isPlaying orb]
    in Hplay.
  split; [exact Hlevel |]. split; [exact Hplay |].
  split; [unfold render; rewrite Hplay;
          destruct (existsb startsPlay ops); reflexivity |].
  intros Hlast. destruct gs as [level score playing total].
  cbn in Hlast. subst level. reflexivity.
Qed.

Lemma run_state_stays_in_range_witness :
  let gs := runOps [opStartGame; opNextLevel; opNextLevel; opNextLevel;
                    opNextLevel; opNextLevel] initialGameState in
  applyOp opNextLevel gs = gs.
Proof.
  intros gs.
  destruct (run_state_stays_in_range
              [opStartGame; opNextLevel; opNextLevel; opNextLevel;
               opNextLevel; opNextLevel]) as (_ & _ & _ & Hlast).
  apply Hlast. reflexivity.
Defined.

(** ** The sound manager *)

Section Sounds.

Import SoundManager.

Lemma playSound_muted (soundName : string) (m : SoundManager.t) :
  isMuted m = true -> playSound soundName m = [].
Proof.
  intros Hmuted. unfold playSound. rewrite Hmuted.
  destruct (lookup soundName (sounds m)); reflexivity.
Qed.

Lemma playSound_closed (soundName : string) (m : SoundManager.t) :
  audioContext m = false -> playSound soundName m = [].
Proof.
  intros Hclosed. unfold playSound, play. rewrite Hclosed.
  destruct (lookup soundName (sounds m)), (isMuted m); reflexivity.
Qed.

Lemma playSound_tone (soundName : string) (m : SoundManager.t)
    (o : Output) :
  In o (playSound soundName m) ->
  isTone o = true ->
  exists b v, lookup soundName (sounds m) = Some b
              /\ volume m = Finite v
              /\ audioContext m = true
              /\ isMuted m = false
              /\ o = tone (frequency b) (type b) v (duration b).
Proof.
  unfold playSound, play.
  destruct (lookup soundName (sounds m)) as [b |]; [| intros []].
  destruct (isMuted m); cbn [negb]; [intros [] |].
  destruct (audioContext m); cbn [negb orb]; [| intros []].
  destruct (volume m) as [v | | |]; intros [<- | []] Htone;
    try discriminate Htone.
  exists b, v. repeat split.
Qed.

Lemma perform_tone (c : Call) (m : SoundManager.t) (o : Output) :
  In o (perform c m) ->
  isTone o = true ->
  exists soundName, In o (playSound soundName m).
Proof.
  intros Hin Htone.
  assert (Hmelody : forall name,
             In o (playSound name m
                   ++ [later 200 "success"; later 400 "color";
                       later 600 "complete"]) ->
             In o (playSound name m)).
  { intros name Happ. apply in_app_or in Happ.
    destruct Happ as [Hplay | Hlater]; [exact Hplay |].
    exfalso. destruct Hlater as [<- | [<- | [<- | []]]]; discriminate Htone. }
  destruct c as [| | | | | | kind | name]; cbn in Hin.
  1-5: eexists; exact Hin.
  - eexists. apply Hmelody. exact Hin.
  - destruct kind; cbn in Hin.
    + eexists. apply Hmelody. exact Hin.
    + eexists. exact Hin.
    + eexists. exact Hin.
  - eexists. exact Hin.
Qed.



End Sounds.

(** X18.  A muted manager, and one without an audio context (so also one
    that has been destroyed), never starts a tone, whichever sound is asked
    for, directly or by a timer of the completion melody.  A muted manager
    asked for a single sound does nothing at all. *)
Theorem muted_or_closed_is_silent (c : SoundManager.Call)
    (m : SoundManager.t) :
  (SoundManager.isMuted m = true \/ SoundManager.audioContext m = false ->
   Forall (fun o => SoundManager.isTone o = false) (SoundManager.perform c m))
  /\ Forall (fun o => SoundManager.isTone o = false)
            (SoundManager.perform c (SoundManager.destroy m))
  /\ Forall (fun o => SoundManager.isTone o = false)
            (SoundManager.perform c (SoundManager.setMuted true m))
  /\ (SoundManager.isMuted m = true ->
      forall soundName, SoundManager.playSound soundName m = []).
Proof.
  assert (Hsilent : forall m',
             SoundManager.isMuted m' = true
             \/ SoundManager.audioContext m' = false ->
             Forall (fun o => SoundManager.isTone o = false)
                    (SoundManager.perform c m')).
  { intros m' Hquiet. apply Forall_forall. intros o Hin.
    destruct (SoundManager.isTone o) eqn:Htone; [| reflexivity].
    exfalso.
    destruct (perform_tone c m' o Hin Htone) as [name Hplay].
    destruct Hquiet as [Hmuted | Hclosed].
    - rewrite (playSound_muted name m' Hmuted) in Hplay. exact Hplay.
    - rewrite (playSound_closed name m' Hclosed) in Hplay. exact Hplay. }
  split; [apply Hsilent |].
  split.
  { apply Hsilent. right. unfold SoundManager.destroy.
    destruct (SoundManager.audioContext m) eqn:Hctx; [reflexivity | exact Hctx]. }
  split; [apply Hsilent; left; reflexivity |].
  intros Hmuted soundName. apply playSound_muted. exact Hmuted.
Qed.

Lemma muted_or_closed_is_silent_witness :
  SoundManager.playSound "drop"
    (fst (SoundManager.toggleMute (SoundManager.create true))) = [].
Proof.
  destruct (muted_or_closed_is_silent SoundManager.callDrop
              (fst (SoundManager.toggleMute (SoundManager.create true))))
    as (_ & _ & _ & Hnothing).
  apply Hnothing. reflexivity.
Defined.

(** X19.  [setVolume] clamps: a volume that is not NaN is stored as a finite
    number between 0 and 1 (a value already in that range as itself), so no
    tone played afterwards has a peak outside 0 .. 1; setting the stored
    volume again changes nothing; mute flag, sounds and audio context are
    untouched.  NaN is stored as NaN. *)
Theorem setVolume_clamps (v : SoundManager.Number) (m : SoundManager.t) :
  let m' := SoundManager.setVolume v m in
  (v <> SoundManager.NotANumber ->
   exists q, SoundManager.volume m' = SoundManager.Finite q
             /\ QArith_base.Qle (QArith_base.Qmake 0 1) q
             /\ QArith_base.Qle q (QArith_base.Qmake 1 1))
  /\ (forall q, v = SoundManager.Finite q ->
                QArith_base.Qle (QArith_base.Qmake 0 1) q ->
                QArith_base.Qle q (QArith_base.Qmake 1 1) ->
                QArith_base.Qeq q (QArith_base.Qmake 1 1)
                \/ SoundManager.volume m' = SoundManager.Finite q)
  /\ (v <> SoundManager.NotANumber ->
      forall c f ty peak d,
        In (SoundManager.tone f ty peak d) (SoundManager.perform c m') ->
        QArith_base.Qle (QArith_base.Qmake 0 1) peak
        /\ QArith_base.Qle peak (QArith_base.Qmake 1 1))
  /\ SoundManager.setVolume (SoundManager.volume m') m' = m'
  /\ (v = SoundManager.NotANumber ->
      SoundManager.volume m' = SoundManager.NotANumber)
  /\ SoundManager.isMuted m' = SoundManager.isMuted m
  /\ SoundManager.sounds m' = SoundManager.sounds m
  /\ SoundManager.audioContext m' = SoundManager.audioContext m.
Proof.
  intros m'.
  assert (Hclamp : v <> SoundManager.NotANumber ->
            exists q, SoundManager.volume m' = SoundManager.Finite q
                      /\ QArith_base.Qle (QArith_base.Qmake 0 1) q
                      /\ QArith_base.Qle q (QArith_base.Qmake 1 1)).
  { intros Hnan. subst m'. unfold SoundManager.setVolume.
    cbn [SoundManager.volume].
    destruct v as [q | | |]; [| | | congruence].
    - cbn [SoundManager.Math_min].
      destruct (QArith_base.Qle_bool (QArith_base.Qmake 1 1) q) eqn:Hhigh.
      + eexists. split; [reflexivity |]. split; discriminate.
      + cbn [SoundManager.Math_max].
        destruct (QArith_base.Qle_bool (QArith_base.Qmake 0 1) q) eqn:Hlow.
        * eexists. split; [reflexivity |].
          split; [apply QArith_base.Qle_bool_iff; exact Hlow |].
          destruct (QArith_base.Qlt_le_dec q (QArith_base.Qmake 1 1))
            as [Hlt | Hge]; [apply QArith_base.Qlt_le_weak; exact Hlt |].
          apply QArith_base.Qle_bool_iff in Hge. congruence.
        * eexists. split; [reflexivity |]. split; discriminate.
    - eexists. split; [reflexivity |]. split; discriminate.
    - eexists. split; [reflexivity |]. split; discriminate. }
  split; [exact Hclamp |].
  split.
  { intros q -> Hlow Hhigh. subst m'. unfold SoundManager.setVolume.
    cbn [SoundManager.volume SoundManager.Math_min].
    destruct (QArith_base.Qle_bool (QArith_base.Qmake 1 1) q) eqn:Hone.
    - left. apply QArith_base.Qle_bool_iff in Hone.
      apply QArith_base.Qle_antisym; assumption.
    - right. cbn [SoundManager.Math_max].
      apply QArith_base.Qle_bool_iff in Hlow. rewrite Hlow. reflexivity. }
  split.
  { intros Hnan c f ty peak d Hin.
    destruct (Hclamp Hnan) as (q & Hvol & Hlow & Hhigh).
    destruct (perform_tone c m' _ Hin eq_refl) as [name Hplay].
    destruct (playSound_tone name m' _ Hplay eq_refl)
      as (b & w & _ & Hw & _ & _ & Heq).
    injection Heq as _ _ -> _. rewrite Hvol in Hw.
    injection Hw as <-. split; assumption. }
  split.
  { subst m'. unfold SoundManager.setVolume. cbn [SoundManager.volume
      SoundManager.audioContext SoundManager.sounds SoundManager.isMuted].
    f_equal.
    destruct v as [q | | |]; cbn [SoundManager.Math_min SoundManager.Math_max];
      try reflexivity.
    destruct (QArith_base.Qle_bool (QArith_base.Qmake 1 1) q) eqn:Hhigh;
      cbn [SoundManager.Math_min SoundManager.Math_max]; [reflexivity |].
    destruct (QArith_base.Qle_bool (QArith_base.Qmake 0 1) q) eqn:Hlow;
      cbn [SoundManager.Math_min SoundManager.Math_max];
      rewrite ?Hhigh; cbn [SoundManager.Math_max]; rewrite ?Hlow;
      reflexivity. }
  split; [intros ->; reflexivity |].
  repeat split.
Qed.

Lemma setVolume_clamps_witness :
  SoundManager.volume
    (SoundManager.setVolume (SoundManager.Finite (QArith_base.Qmake 5 2))
       (SoundManager.create true))
  = SoundManager.Finite (QArith_base.Qmake 1 1)
  /\ SoundManager.volume
       (SoundManager.setVolume SoundManager.MinusInfinity
          (SoundManager.create true))
     = SoundManager.Finite (QArith_base.Qmake 0 1).
Proof.
  split.
  - destruct (setVolume_clamps (SoundManager.Finite (QArith_base.Qmake 5 2))
                (SoundManager.create true)) as (Hclamp & _).
    destruct Hclamp as (q & Hvol & _); [discriminate |].
    rewrite Hvol. vm_compute in Hvol. injection Hvol as <-. reflexivity.
  - destruct (setVolume_clamps SoundManager.MinusInfinity
                (SoundManager.create true)) as (Hclamp & _).
    destruct Hclamp as (q & Hvol & _); [discriminate |].
    rewrite Hvol. vm_compute in Hvol. injection Hvol as <-. reflexivity.
Defined.

(** X20.  [toggleMute] returns the new mute flag, and toggling twice gives
    the manager back exactly as it was; between the two toggles of a manager
    that was not muted, every single sound is dropped. *)
Theorem toggleMute_twice (m : SoundManager.t) :
  fst (SoundManager.toggleMute (fst (SoundManager.toggleMute m))) = m
  /\ snd (SoundManager.toggleMute m) = negb (SoundManager.isMuted m)
  /\ SoundManager.isMuted (fst (SoundManager.toggleMute m))
     = snd (SoundManager.toggleMute m)
  /\ (SoundManager.isMuted m = false ->
      forall soundName,
        SoundManager.playSound soundName (fst (SoundManager.toggleMute m))
        = []).
Proof.
  destruct m as [ctx map muted vol].
  unfold SoundManager.toggleMute. cbn.
  rewrite negb_involutive. repeat split.
  intros -> soundName. apply playSound_muted. reflexivity.
Qed.

Lemma toggleMute_twice_witness :
  SoundManager.playSound "click"
    (fst (SoundManager.toggleMute (SoundManager.create true))) = []
  /\ fst (SoundManager.toggleMute
            (fst (SoundManager.toggleMute (SoundManager.create true))))
     = SoundManager.create true.
Proof.
  destruct (toggleMute_twice (SoundManager.create true))
    as (Hback & _ & _ & Hquiet).
  split; [apply Hquiet; reflexivity | exact Hback].
Defined.



(** ** Every level without preset boxes can be won with one box *)

Section OneBox.

Variables (lvl : Level.t) (gameState : GameState.t).

Lemma run_app (e1 e2 : list Event) (st : State) :
  run lvl gameState (e1 ++ e2) st
  = (fst (run lvl gameState e2 (fst (run lvl gameState e1 st))),
     snd (run lvl gameState e1 st)
       ++ snd (run lvl gameState e2 (fst (run lvl gameState e1 st)))).
Proof.
  revert st. induction e1 as [| ev rest IH]; intros st; cbn [app run].
  - cbn [fst snd app]. destruct (run lvl gameState e2 st); reflexivity.
  - destruct (handleEvent lvl gameState ev st) as [st1 es1].
    rewrite (IH st1).
    destruct (run lvl gameState rest st1) as [st2 es2]. cbn [fst snd].
    rewrite app_assoc. reflexivity.
Qed.

Lemma offeredAll_app (e1 e2 : list Event) (st : State) :
  offeredAll lvl gameState e1 st ->
  offeredAll lvl gameState e2 (fst (run lvl gameState e1 st)) ->
  offeredAll lvl gameState (e1 ++ e2) st.
Proof.
  revert st. induction e1 as [| ev rest IH]; intros st H1 H2; cbn [app].
  - exact H2.
  - destruct H1 as [Hev Hrest]. split; [exact Hev |].
    apply IH; [exact Hrest |].
    cbn [run] in H2.
    destruct (handleEvent lvl gameState ev st) as [st1 es1].
    cbn [fst] in *.
    destruct (run lvl gameState rest st1) as [st2 es2]. exact H2.
Qed.

(** Dropping, one after the other, the unplaced items [todo] of the pool
    into the only box. *)
Lemma drops_into_the_box (boxId : string) (color : option string)
    (todo : list ChocolateItem.t) :
  forall (done inside : list ChocolateItem.t) (st : State),
    gamePhase st = packing ->
    chocolates st = done ++ todo ->
    boxes st = [BoxItem.mk boxId inside color] ->
    NoDup (chocolateIds (done ++ todo)) ->
    Forall (fun c => ChocolateItem.placed c = false) todo ->
    offeredAll lvl gameState (Play.dropsInto boxId todo) st
    /\ fst (run lvl gameState (Play.dropsInto boxId todo) st)
       = setBoxes [BoxItem.mk boxId (inside ++ todo) color]
           (setChocolates
              (done ++ map (fun c => ChocolateItem.mk (ChocolateItem.id c)
                                       (ChocolateItem.type c) true) todo)
              st)
    /\ filter isAward
         (snd (run lvl gameState (Play.dropsInto boxId todo) st)) = [].
Proof.
  induction todo as [| c rest IH];
    intros done inside st Hphase Hchoc Hboxes Hnodup Hfree.
  - cbn. split; [exact I |]. split; [| reflexivity].
    rewrite !app_nil_r. rewrite <- Hboxes.
    rewrite app_nil_r in Hchoc. rewrite <- Hchoc.
    destruct st; reflexivity.
  - apply Forall_cons_iff in Hfree. destruct Hfree as [Hc Hrest].
    assert (Hstep : handleEvent lvl gameState (DropChocolate boxId c) st
              = (setBoxes [BoxItem.mk boxId (inside ++ [c]) color]
                   (setChocolates
                      ((done ++ [ChocolateItem.mk (ChocolateItem.id c)
                                   (ChocolateItem.type c) true]) ++ rest)
                      st),
                 [playDropSound])).
    { cbn [handleEvent]. unfold boxPhase. rewrite Hphase.
      unfold handleDropChocolate. rewrite Hc. state_simpl.
      rewrite Hchoc, Hboxes. cbn [map appendTo BoxItem.id
        BoxItem.chocolates BoxItem.color].
      unfold appendTo. cbn [BoxItem.id BoxItem.chocolates BoxItem.color].
      rewrite String.eqb_refl.
      unfold chocolateIds in Hnodup. rewrite map_app in Hnodup.
      cbn [map] in Hnodup.
      pose proof (NoDup_remove_2 _ _ _ Hnodup) as Hnot.
      rewrite map_app. cbn [map].
      rewrite (markPlaced_absent (ChocolateItem.id c) done)
        by (intros Hin; apply Hnot; apply in_or_app; left; exact Hin).
      rewrite (markPlaced_absent (ChocolateItem.id c) rest)
        by (intros Hin; apply Hnot; apply in_or_app; right; exact Hin).
      unfold markPlaced at 1. rewrite String.eqb_refl.
      rewrite <- app_assoc. reflexivity. }
    cbn [Play.dropsInto map offeredAll run].
    fold (Play.dropsInto boxId rest).
    rewrite Hstep. cbn [fst].
    set (st1 := setBoxes [BoxItem.mk boxId (inside ++ [c]) color]
                  (setChocolates
                     ((done ++ [ChocolateItem.mk (ChocolateItem.id c)
                                  (ChocolateItem.type c) true]) ++ rest)
                     st)).
    destruct (IH (done ++ [ChocolateItem.mk (ChocolateItem.id c)
                             (ChocolateItem.type c) true])
                 (inside ++ [c]) st1) as (IHoffered & IHstate & IHaward).
    + exact Hphase.
    + reflexivity.
    + reflexivity.
    + unfold chocolateIds in *. rewrite !map_app in *. cbn [map] in *.
      cbn [ChocolateItem.id]. rewrite <- app_assoc. exact Hnodup.
    + exact Hrest.
    + split.
      { split; [| exact IHoffered].
        split; [rewrite Hchoc; apply in_or_app; right; left; reflexivity |].
        split; [exact Hc |]. rewrite Hboxes. left. reflexivity. }
      destruct (run lvl gameState (Play.dropsInto boxId rest) st1)
        as [st2 es2]. cbn [fst snd] in *.
      split; [| cbn; exact IHaward].
      rewrite IHstate. subst st1. cbn [map app].
      unfold setBoxes, setChocolates. state_simpl.
      rewrite <- !app_assoc. reflexivity.
Qed.

End OneBox.

Section OneBoxFinish.

Variables (lvl : Level.t) (gameState : GameState.t).

(** With everything in the only box: check, pick a colour, colour the box,
    check again. *)
Lemma finish_with_one_box (boxId : string) (color : Color.t)
    (items : list ChocolateItem.t) (st : State) :
  In color COLORS ->
  gamePhase st = packing ->
  boxes st = [BoxItem.mk boxId items None] ->
  placedChocolates st = Level.chocolates lvl ->
  length items = Level.chocolates lvl ->
  let evs := [RunEffect; SelectColor color; ClickBox boxId; RunEffect] in
  gamePhase (fst (run lvl gameState evs st)) = completed
  /\ boxes (fst (run lvl gameState evs st))
     = [BoxItem.mk boxId items (Some (Color.color color))]
  /\ chocolates (fst (run lvl gameState evs st)) = chocolates st
  /\ filter isAward (snd (run lvl gameState evs st)) = [onAwardPoints 10].
Proof.
  intros Hcolor Hphase Hboxes Hplaced Hlen evs. subst evs.
  pose (s1 := setMessage msgPackingDone (setGamePhase coloring st)).
  pose (s2 := setSelectedColor (Some color) s1).
  pose (s3 := setBoxes [BoxItem.mk boxId items (Some (Color.color color))] s2).
  pose (s4 := setMessage msgAllColoured (setGamePhase completed s3)).
  assert (H1 : handleEvent lvl gameState RunEffect st
               = (s1, [playSuccessSound])).
  { cbn [handleEvent]. unfold completionEffect. rewrite Hphase.
    unfold checkPackingComplete, packingComplete, isEvenlyDistributed,
      chocolatesPerBox.
    rewrite Hplaced, Hboxes. cbn [length forallb BoxItem.chocolates].
    rewrite Hlen, Nat.div_1_r, Nat.eqb_refl. reflexivity. }
  assert (H2 : handleEvent lvl gameState (SelectColor color) s1 = (s2, []))
    by reflexivity.
  assert (H3 : handleEvent lvl gameState (ClickBox boxId) s2
               = (s3, [playColorSound])).
  { cbn [handleEvent]. unfold boxPhase, s2, s1. state_simpl.
    unfold handleDropColor. state_simpl. rewrite Hboxes.
    cbn [map]. unfold paint. cbn [BoxItem.id BoxItem.chocolates].
    rewrite String.eqb_refl. reflexivity. }
  assert (H4 : exists tail,
             handleEvent lvl gameState RunEffect s3
             = (s4, [onAwardPoints 10; playCompleteSound;
                     playVoiceMessage voiceAllColoured] ++ tail)
             /\ filter isAward tail = []).
  { exists (if (GameState.currentLevel gameState
                =? Z.of_nat (length LEVELS))%Z
            then [onCompleteRun] else []).
    split; [| destruct (_ =? _)%Z; reflexivity].
    cbn [handleEvent]. unfold completionEffect, s3, s2, s1. state_simpl.
    unfold checkColoringComplete, coloringComplete. state_simpl.
    cbn [length forallb BoxItem.color Nat.ltb Nat.leb andb].
    rewrite (palette_truthy color Hcolor). reflexivity. }
  destruct H4 as (tail & H4 & Htail).
  cbn [run]. rewrite H1, H2, H3, H4. cbn [fst snd].
  split; [reflexivity |]. split; [reflexivity |]. split; [reflexivity |].
  rewrite !filter_app. cbn [filter isAward app]. rewrite Htail. reflexivity.
Qed.

End OneBoxFinish.

(** X22.  Every level without preset boxes can be won with a single box,
    whatever the shuffle: adding one box, dropping every item of the pool
    into it, and colouring it with any colour of the palette is a sequence
    the page accepts step by step; the first check moves on to colouring,
    the second completes the level, and the 10 points are awarded exactly
    once. *)
Theorem one_box_always_wins (lvl : Level.t) (gameState : GameState.t)
    (now clock : nat) (rnd : string) (shuffled : list ChocolateItem.t)
    (st0 : State) (color : Color.t) :
  Permutation shuffled (newChocolates lvl) ->
  Level.presetBoxes lvl = false ->
  In color COLORS ->
  let fresh := initializeLevel lvl now shuffled st0 in
  let boxId := newBoxId clock rnd in
  let evs :=
    ClickAddBox clock rnd
      :: Play.dropsInto boxId shuffled
      ++ [RunEffect; SelectColor color; ClickBox boxId; RunEffect] in
  offeredAll lvl gameState evs fresh
  /\ gamePhase (fst (run lvl gameState evs fresh)) = completed
  /\ boxes (fst (run lvl gameState evs fresh))
     = [BoxItem.mk boxId shuffled (Some (Color.color color))]
  /\ filter isAward (snd (run lvl gameState evs fresh)) = [onAwardPoints 10].
Proof.
  intros Hperm Hfree Hcolor fresh boxId evs.
  pose proof (initializeLevel_balanced lvl now shuffled st0 Hperm)
    as [Hids _ Hlen _].
  destruct (fresh_nothing_placed lvl now shuffled st0 Hperm)
    as (Hchoc & Hunplaced & _).
  fold fresh in Hlen, Hids, Hchoc. rewrite <- Hchoc in Hunplaced.
  assert (Hnone : boxes fresh = [])
    by (subst fresh; unfold initializeLevel; rewrite Hfree; reflexivity).
  assert (Hphase : gamePhase fresh = packing)
    by (subst fresh; unfold initializeLevel; rewrite Hfree; reflexivity).
  set (st1 := setBoxes [BoxItem.mk boxId [] None] fresh).
  assert (Hadd : handleEvent lvl gameState (ClickAddBox clock rnd) fresh
                 = (st1, [playClickSound])).
  { cbn [handleEvent]. unfold clickAddBox, addBox. rewrite Hfree, Hnone.
    reflexivity. }
  destruct (drops_into_the_box lvl gameState boxId None shuffled [] [] st1)
    as (Hoffered & Hafter & Hquiet).
  { exact Hphase. }
  { exact Hchoc. }
  { reflexivity. }
  { cbn [app]. rewrite <- Hchoc. exact Hids. }
  { rewrite <- Hchoc. exact Hunplaced. }
  cbn [app] in Hafter.
  set (st2 := fst (run lvl gameState (Play.dropsInto boxId shuffled) st1))
    in *.
  destruct (finish_with_one_box lvl gameState boxId color shuffled st2)
    as (Hdone & Hbox & _ & Haward).
  { exact Hcolor. }
  { rewrite Hafter. exact Hphase. }
  { rewrite Hafter. reflexivity. }
  { rewrite Hafter. unfold placedChocolates. state_simpl.
    rewrite <- Hlen, Hchoc. clear.
    induction shuffled as [| c cs IH]; cbn; [reflexivity |].
    rewrite IH. reflexivity. }
  { rewrite <- Hlen, Hchoc. reflexivity. }
  subst evs. cbn [offeredAll run]. rewrite Hadd. cbn [fst].
  rewrite run_app. fold st2. cbn [fst snd].
  split.
  { split; [cbn [offered]; rewrite Hnone; intros [] |].
    apply offeredAll_app; [exact Hoffered |].
    fold st2. cbn [offeredAll offered]. tauto. }
  split; [exact Hdone |]. split; [exact Hbox |].
  cbn [app filter isAward]. rewrite filter_app, Hquiet, Haward. reflexivity.
Qed.

Lemma one_box_always_wins_witness :
  let brown := Color.mk "#8B4513" "شکلاتی" "🍫" in
  let evs :=
    ClickAddBox 18 "0.25"
      :: Play.dropsInto "box-18-0.25" (newChocolates (levelAt 4))
      ++ [RunEffect; SelectColor brown; ClickBox "box-18-0.25"; RunEffect] in
  gamePhase (fst (run (levelAt 4) (GameState.mk 4 30 true 0) evs
                      (Play.fresh 4))) = completed.
Proof.
  intros brown evs.
  destruct (one_box_always_wins (levelAt 4) (GameState.mk 4 30 true 0)
              17 18 "0.25" (newChocolates (levelAt 4)) initialState brown)
    as (_ & Hdone & _).
  - apply Permutation_refl.
  - reflexivity.
  - left. reflexivity.
  - exact Hdone.
Defined.
